(** * Resolution of the (service, environment) pair of the status command

    A shallow embedding of the [cli] package's [appStatusOpts] (its [Ask]
    phase: [askProject], [askAppEnvName] and their helpers) and of the
    [color] package's [DisableColorBasedOnEnvVar], followed by the
    properties of the resolution engine that the specification states.

    The collaborators of the engine (the datastore, the stack describer,
    the prompt and the logger) are reached through calls; a program is a
    tree of such calls, and running it against an oracle that answers every
    call yields the returned value together with the trace of the calls
    made, in order. *)

From stdpp Require Import gmap strings list fin_maps.

(** ** Go errors *)

(** An [error] value: either a plain message ([errors.New], [fmt.Errorf]
    without [%w], or whatever a collaborator returned), or the
    [*fmt.wrapError] that [fmt.Errorf] builds for a [%w] verb, which holds
    the whole formatted message and the wrapped error. *)
Inductive error : Type :=
| errorString (s : string)
| wrapError (msg : string) (err : error).

#[global] Instance error_eq_dec : EqDecision error.
Proof. solve_decision. Defined.

(** [err.Error()] *)
Definition Error (e : error) : string :=
  match e with
  | errorString s => s
  | wrapError msg _ => msg
  end.

(** [errors.Unwrap(err)] *)
Definition Unwrap (e : error) : option error :=
  match e with
  | errorString _ => None
  | wrapError _ err => Some err
  end.

(** [errors.Is(err, target)]: [target] is found along the [Unwrap] chain. *)
Fixpoint Is (err target : error) : bool :=
  bool_decide (err = target) ||
  match err with
  | errorString _ => false
  | wrapError _ inner => Is inner target
  end.

(** [fmt.Errorf(prefix + "%w", err)]: every wrapping format of the package
    ends in [": %w"], so the message is the formatted prefix followed by
    the message of the wrapped error. *)
Definition Errorf_w (prefix : string) (err : error) : error :=
  wrapError (prefix +:+ Error err) err.

(** A Go [(value, error)] return. *)
Inductive result (A : Type) : Type :=
| Ok (a : A)
| Err (err : error).
Arguments Ok {A} a.
Arguments Err {A} err.

(** ** Data *)

(** Modelled from the spec: [config.Application], [config.Service] and
    [config.Environment] are declared outside the files at hand; the
    engine reads their [Name] only. *)
Record Application := { Application_Name : string }.
Record Service := { Service_Name : string }.
Record Environment := { Environment_Name : string }.

(** Modelled from the spec: [describe.ServiceDescriber] is declared outside
    the files at hand; a describer is created for a project, an environment
    and a service. *)
Record serviceDescriber := {
  describer_app : string;
  describer_env : string;
  describer_svc : string
}.

#[global] Instance serviceDescriber_eq_dec : EqDecision serviceDescriber.
Proof. solve_decision. Defined.

(** Modelled from the spec: [svcEnv] is declared outside the files at hand;
    the Candidate Pair of a service name and an environment name. *)
Record svcEnv := {
  svcEnv_svcName : string;
  svcEnv_envName : string
}.

#[global] Instance svcEnv_eq_dec : EqDecision svcEnv.
Proof. solve_decision. Defined.

(** The zero value of [svcEnv], which a Go map returns for a missing key. *)
Definition svcEnv_zero : svcEnv :=
  {| svcEnv_svcName := ""; svcEnv_envName := "" |}.

(** [appStatusOpts]: the variables of [appStatusVars] (with the project name
    of the embedded [GlobalOpts]) and the describer installed by
    [initAppDescriber]; [nil] is [None]. *)
Record appStatusOpts := {
  appName : string;
  shouldOutputJSON : bool;
  svcName : string;
  envName : string;
  appDescriber : option serviceDescriber
}.

#[global] Instance appStatusOpts_eq_dec : EqDecision appStatusOpts.
Proof. solve_decision. Defined.

Definition set_appName (v : string) (o : appStatusOpts) : appStatusOpts :=
  {| appName := v; shouldOutputJSON := shouldOutputJSON o;
     svcName := svcName o; envName := envName o;
     appDescriber := appDescriber o |}.

Definition set_svcName (v : string) (o : appStatusOpts) : appStatusOpts :=
  {| appName := appName o; shouldOutputJSON := shouldOutputJSON o;
     svcName := v; envName := envName o;
     appDescriber := appDescriber o |}.

Definition set_envName (v : string) (o : appStatusOpts) : appStatusOpts :=
  {| appName := appName o; shouldOutputJSON := shouldOutputJSON o;
     svcName := svcName o; envName := v;
     appDescriber := appDescriber o |}.

Definition set_appDescriber (v : option serviceDescriber) (o : appStatusOpts)
  : appStatusOpts :=
  {| appName := appName o; shouldOutputJSON := shouldOutputJSON o;
     svcName := svcName o; envName := envName o;
     appDescriber := v |}.

(** Modelled from the spec: [GlobalOpts.AppName] is declared outside the
    files at hand; it reads the project name that [askProject] assigns. *)
Definition AppName (o : appStatusOpts) : string := appName o.

(** ** Calls to the collaborators *)

(** A call, indexed by the type of what the collaborator returns. *)
Inductive event : Type -> Type :=
| ListApplications : event (result (list Application))
| ListServices (app : string) : event (result (list Service))
| ListEnvironments (app : string) : event (result (list Environment))
| GetApplication (app : string) : event (result Application)
| GetService (app svc : string) : event (result Service)
| GetEnvironment (app env : string) : event (result Environment)
| NewServiceDescriber (app env svc : string) : event (result serviceDescriber)
| GetServiceArn (d : serviceDescriber) : event (result string)
| SelectOne (message help : string) (options : list string)
    : event (result string)
| Infof (msg : string) : event unit.

(** A program: it returns, or makes a call and goes on with the answer. *)
Inductive prog (A : Type) : Type :=
| Ret (a : A)
| Vis {X : Type} (e : event X) (k : X -> prog A).
Arguments Ret {A} a.
Arguments Vis {A X} e k.

Fixpoint pbind {A B} (p : prog A) (f : A -> prog B) : prog B :=
  match p with
  | Ret a => f a
  | Vis e k => Vis e (fun x => pbind (k x) f)
  end.

(** The collaborators, as what they answer to each call. *)
Definition oracle : Type := forall X, event X -> X.

(** One entry of a trace: a call and its answer. *)
Inductive call : Type :=
| Call {X : Type} (e : event X) (r : X).

Fixpoint run {A} (orc : oracle) (p : prog A) : A * list call :=
  match p with
  | Ret a => (a, [])
  | Vis e k =>
      let r := orc _ e in
      let '(a, tr) := run orc (k r) in
      (a, Call e r :: tr)
  end.

(** ** The monad of the methods of [appStatusOpts] *)

(** How a method ends: it returns (with [nil] for the error), returns an
    error, or panics. *)
Inductive outcome (A : Type) : Type :=
| Done (a : A)
| Failed (err : error)
| Panicked.
Arguments Done {A} a.
Arguments Failed {A} err.
Arguments Panicked {A}.

(** A method works on the receiver [o], which it may update, and makes
    calls. The receiver is kept when the method fails. *)
Definition M (A : Type) : Type :=
  appStatusOpts -> prog (outcome A * appStatusOpts).

Definition ret {A} (a : A) : M A := fun o => Ret (Done a, o).

Definition bind {A B} (m : M A) (f : A -> M B) : M B :=
  fun o =>
    pbind (m o) (fun ro =>
      match ro.1 with
      | Done a => f a ro.2
      | Failed err => Ret (Failed err, ro.2)
      | Panicked => Ret (Panicked, ro.2)
      end).

Definition fail {A} (err : error) : M A := fun o => Ret (Failed err, o).
Definition panic {A} : M A := fun o => Ret (Panicked, o).
Definition perform {X} (e : event X) : M X :=
  fun o => Vis e (fun r => Ret (Done r, o)).
Definition receiver : M appStatusOpts := fun o => Ret (Done o, o).
Definition update (f : appStatusOpts -> appStatusOpts) : M unit :=
  fun o => Ret (Done tt, f o).

Declare Scope go_scope.
Delimit Scope go_scope with go.
Notation "'let*' x := m 'in' k" := (bind m (fun x => k))
  (at level 10, x pattern, m at level 100, k at level 200) : go_scope.
Notation "m ;;; k" := (bind m (fun _ => k))
  (at level 100, k at level 200, right associativity) : go_scope.
Local Open Scope go_scope.

(** [for _, x := range xs { body }], the body working on the variables [s]
    declared before the loop; a [return err] in the body leaves the loop. *)
Fixpoint forRange {A S} (xs : list A) (body : A -> S -> M S) (s : S) : M S :=
  match xs with
  | [] => ret s
  | x :: rest => let* s' := body x s in forRange rest body s'
  end.

(** Running a method on a receiver against an oracle. *)
Definition exec {A} (orc : oracle) (m : M A) (o : appStatusOpts)
  : outcome A * appStatusOpts * list call :=
  run orc (m o).

(** ** What the package takes from elsewhere in the repository *)

(** Modelled from the spec: the highlighting functions of the [color]
    package, [describe.IsStackNotExistsErr] (the recognised "not deployed"
    condition), the [String] method of [svcEnv] (the display key of a
    Candidate Pair) and the two prompt texts shared with the logs command
    are declared outside the files at hand; they are parameters here. *)
Class Imports := {
  HighlightUserInput : string -> string;
  HighlightCode : string -> string;
  IsStackNotExistsErr : error -> bool;
  svcEnv_String : svcEnv -> string;
  svcLogNamePrompt : string;
  svcLogNameHelpPrompt : string
}.

Definition appStatusProjectNamePrompt : string :=
  "Which project's applications status would you like to show?".
Definition appStatusProjectNameHelpPrompt : string :=
  "A project groups all of your applications together.".
Definition appStatusAppNamePrompt : string :=
  "Which application's status would you like to show?".
Definition appStatusAppNameHelpPrompt : string :=
  "Displays the service's, tasks and CloudWatch alarms status.".

Definition newline : string := String (Ascii.ascii_of_nat 10) EmptyString.

(** The Candidate Set under construction: [appEnvs] and [appEnvNames]. *)
Abbreviation candidates := (gmap string svcEnv * list string)%type.

Section Engine.
Context `{Imports}.

(** The [initAppDescriber] that [newAppStatusOpts] installs. *)
Definition initAppDescriber (envName svcName : string) : M unit :=
  let* o := receiver in
  let* r := perform (NewServiceDescriber (AppName o) envName svcName) in
  match r with
  | Err err =>
      fail (Errorf_w ("creating stack describer for project "
                      +:+ AppName o +:+ ": ") err)
  | Ok d => update (set_appDescriber (Some d))
  end.

(** [o.appDescriber.GetServiceArn()]; a method call on a [nil] interface
    panics. *)
Definition getServiceArn : M (result string) :=
  let* o := receiver in
  match appDescriber o with
  | None => panic
  | Some d => perform (GetServiceArn d)
  end.

Definition Validate : M unit :=
  let* o := receiver in
  (if decide (AppName o = "") then ret tt
   else
     let* r := perform (GetApplication (AppName o)) in
     match r with Err err => fail err | Ok _ => ret tt end) ;;;
  let* o := receiver in
  (if decide (svcName o = "") then ret tt
   else
     let* r := perform (GetService (AppName o) (svcName o)) in
     match r with Err err => fail err | Ok _ => ret tt end) ;;;
  let* o := receiver in
  (if decide (envName o = "") then ret tt
   else
     let* r := perform (GetEnvironment (AppName o) (envName o)) in
     match r with Err err => fail err | Ok _ => ret tt end).

Definition retrieveProjects : M (list string) :=
  let* r := perform ListApplications in
  match r with
  | Err err => fail (Errorf_w "list projects: " err)
  | Ok projs => ret (map Application_Name projs)
  end.

Definition askProject : M unit :=
  let* o := receiver in
  if decide (AppName o = "") then
    let* projNames := retrieveProjects in
    if decide (length projNames = 0) then
      fail (errorString ("no project found: run "
                         +:+ HighlightCode "project init" +:+ " please"))
    else
      let* r := perform (SelectOne appStatusProjectNamePrompt
                                   appStatusProjectNameHelpPrompt
                                   projNames) in
      match r with
      | Err err => fail (Errorf_w "select project: " err)
      | Ok proj => update (set_appName proj)
      end
  else ret tt.

Definition retrieveAllAppNames : M (list string) :=
  let* o := receiver in
  let* r := perform (ListServices (AppName o)) in
  match r with
  | Err err =>
      fail (Errorf_w ("list applications for project "
                      +:+ AppName o +:+ ": ") err)
  | Ok apps => ret (map Service_Name apps)
  end.

Definition retrieveAllEnvNames : M (list string) :=
  let* o := receiver in
  let* r := perform (ListEnvironments (AppName o)) in
  match r with
  | Err err =>
      fail (Errorf_w ("list environments for project "
                      +:+ AppName o +:+ ": ") err)
  | Ok envs => ret (map Environment_Name envs)
  end.

(** The body of the two loops of [askAppEnvName], for one [appName] and
    one [envName], on the Candidate Set built so far: [continue] leaves the
    body with the set as it is, [return err] fails. *)
Definition checkDeployed (appName envName : string) (cs : candidates)
    : M candidates :=
  initAppDescriber envName appName ;;;
  let* r := getServiceArn in
  match r with
  | Err err =>
      if IsStackNotExistsErr err then ret cs
      else
        fail (Errorf_w ("check if app " +:+ appName
                        +:+ " is deployed in env " +:+ envName +:+ ": ")
                       err)
  | Ok _ =>
      let appEnv :=
        {| svcEnv_svcName := appName; svcEnv_envName := envName |} in
      let appEnvName := svcEnv_String appEnv in
      ret (<[appEnvName := appEnv]> cs.1, cs.2 ++ [appEnvName])
  end.

(** The two loops of [askAppEnvName], which build [appEnvs] and
    [appEnvNames] from the empty map and the [nil] slice. *)
Definition buildCandidates (appNames envNames : list string) : M candidates :=
  forRange appNames (fun appName =>
    forRange envNames (fun envName => checkDeployed appName envName))
    (∅, []).

(** The end of [askAppEnvName], once [appEnvs] and [appEnvNames] are built.
    A Go map returns the zero value for a key it does not hold. *)
Definition selectDeployed (cs : candidates) : M unit :=
  let appEnvs := cs.1 in
  let appEnvNames := cs.2 in
  match appEnvNames with
  | [] =>
      let* o := receiver in
      fail (errorString ("no deployed apps found in project "
                         +:+ HighlightUserInput (AppName o)))
  | [only] =>
      perform (Infof ("Only found one deployed app, defaulting to: "
                      +:+ HighlightUserInput only +:+ newline)) ;;;
      update (set_svcName
                (svcEnv_svcName (default svcEnv_zero (appEnvs !! only)))) ;;;
      update (set_envName
                (svcEnv_envName (default svcEnv_zero (appEnvs !! only))))
  | _ =>
      let* r := perform (SelectOne svcLogNamePrompt svcLogNameHelpPrompt
                                   appEnvNames) in
      match r with
      | Err err =>
          let* o := receiver in
          fail (Errorf_w ("select deployed applications for project "
                          +:+ AppName o +:+ ": ") err)
      | Ok appEnvName =>
          update (set_svcName
                    (svcEnv_svcName
                       (default svcEnv_zero (appEnvs !! appEnvName)))) ;;;
          update (set_envName
                    (svcEnv_envName
                       (default svcEnv_zero (appEnvs !! appEnvName))))
      end
  end.

Definition askAppEnvName : M unit :=
  let* o := receiver in
  let* appNames :=
    (if decide (svcName o = "") then
       let* appNames := retrieveAllAppNames in
       if decide (length appNames = 0) then
         let* o := receiver in
         fail (errorString ("no applications found in project "
                            +:+ HighlightUserInput (AppName o)))
       else ret appNames
     else ret [svcName o]) in
  let* o := receiver in
  let* envNames :=
    (if decide (envName o = "") then
       let* envNames := retrieveAllEnvNames in
       if decide (length envNames = 0) then
         let* o := receiver in
         fail (errorString ("no environments found in project "
                            +:+ HighlightUserInput (AppName o)))
       else ret envNames
     else ret [envName o]) in
  let* cs := buildCandidates appNames envNames in
  selectDeployed cs.

(** [Ask] asks for fields that are required but not passed in. *)
Definition Ask : M unit :=
  askProject ;;;
  askAppEnvName.

End Engine.

(** ** The [color] package *)

Module color.

(** The two package-level switches the function writes:
    [core.DisableColor] of the survey library and [color.NoColor] of the
    color library. *)
Record switches := {
  core_DisableColor : bool;
  color_NoColor : bool
}.

#[global] Instance switches_eq_dec : EqDecision switches.
Proof. solve_decision. Defined.

Definition colorEnvVar : string := "COLOR".

(** [strings.ToLower] on the bytes of the string: the letters ['A'] to
    ['Z'] are mapped to ['a'] to ['z']. (Go's function also maps letters
    beyond ASCII; none of them becomes a letter of ["true"] or ["false"].) *)
Definition toLowerByte (c : Ascii.ascii) : Ascii.ascii :=
  let n := Ascii.nat_of_ascii c in
  if (65 <=? n)%nat && (n <=? 90)%nat then Ascii.ascii_of_nat (n + 32) else c.

Fixpoint ToLower (s : string) : string :=
  match s with
  | EmptyString => EmptyString
  | String c rest => String (toLowerByte c) (ToLower rest)
  end.

(** [DisableColorBasedOnEnvVar], on the environment as [lookupEnv] sees it
    ([None] when the variable is not set) and the two switches. *)
Definition DisableColorBasedOnEnvVar (lookupEnv : string -> option string)
    (st : switches) : switches :=
  match lookupEnv colorEnvVar with
  | None =>
      {| core_DisableColor := color_NoColor st;
         color_NoColor := color_NoColor st |}
  | Some value =>
      if decide (ToLower value = "false") then
        {| core_DisableColor := true; color_NoColor := true |}
      else if decide (ToLower value = "true") then
        {| core_DisableColor := false; color_NoColor := false |}
      else st
  end.

End color.

(** ** The vocabulary of the specification *)

(** What one probe of the Deployment Prober amounts to, read off the two
    calls of one iteration: the describer is created for the triple, then
    asked for the service ARN. *)
Inductive probeResult : Type :=
| Deployed
| NotDeployed
| DescriberFailed (cause : error)
| ProbeError (cause : error).

#[global] Instance probeResult_eq_dec : EqDecision probeResult.
Proof. solve_decision. Defined.

(** The calls of a trace, by collaborator. *)
Definition chooserCall (c : call) : option (list string) :=
  match c with
  | Call (SelectOne _ _ options) _ => Some options
  | _ => None
  end.

Definition noticeCall (c : call) : option string :=
  match c with
  | Call (Infof msg) _ => Some msg
  | _ => None
  end.

Definition listingCall (c : call) : bool :=
  match c with
  | Call ListApplications _ => true
  | Call (ListServices _) _ => true
  | Call (ListEnvironments _) _ => true
  | _ => false
  end.

(** The (project, environment, service) triples probed. *)
Definition probeCall (c : call) : option (string * string * string) :=
  match c with
  | Call (NewServiceDescriber app env svc) _ => Some (app, env, svc)
  | _ => None
  end.

Definition arnCall (c : call) : option serviceDescriber :=
  match c with
  | Call (GetServiceArn d) _ => Some d
  | _ => None
  end.

(** The choices of each invocation of the Interactive Chooser, in order. *)
Definition chooserCalls (tr : list call) : list (list string) :=
  omap chooserCall tr.
(** The informational notices emitted, in order. *)
Definition notices (tr : list call) : list string := omap noticeCall tr.
(** The catalog listing calls made. *)
Definition listingCalls (tr : list call) : list call := filter listingCall tr.
(** The triples for which a probe was started, in order. *)
Definition probesIssued (tr : list call) : list (string * string * string) :=
  omap probeCall tr.
(** The describers asked for the service ARN, in order. *)
Definition arnCalls (tr : list call) : list serviceDescriber :=
  omap arnCall tr.

(** The cross product of the candidates, service-major and
    environment-minor. *)
Definition crossProduct (appNames envNames : list string) : list svcEnv :=
  flat_map (fun appName =>
    map (fun envName =>
      {| svcEnv_svcName := appName; svcEnv_envName := envName |}) envNames)
    appNames.

Section Vocabulary.
Context `{Imports}.
Variable orc : oracle.

Definition probe (app : string) (p : svcEnv) : probeResult :=
  match orc _ (NewServiceDescriber app (svcEnv_envName p) (svcEnv_svcName p))
  with
  | Err cause => DescriberFailed cause
  | Ok d =>
      match orc _ (GetServiceArn d) with
      | Ok _ => Deployed
      | Err cause =>
          if IsStackNotExistsErr cause then NotDeployed else ProbeError cause
      end
  end.

Definition deployed (app : string) (p : svcEnv) : bool :=
  bool_decide (probe app p = Deployed).

(** The probe ended in one of the two outcomes that let probing go on. *)
Definition settled (app : string) (p : svcEnv) : bool :=
  bool_decide (probe app p = Deployed) || bool_decide (probe app p = NotDeployed).

(** The calls that probing one pair makes. *)
Definition callsOfProbe (app : string) (p : svcEnv) : list call :=
  let e := NewServiceDescriber app (svcEnv_envName p) (svcEnv_svcName p) in
  match orc _ e with
  | Err cause => [Call e (Err cause)]
  | Ok d => [Call e (Ok d); Call (GetServiceArn d) (orc _ (GetServiceArn d))]
  end.

(** The describer that the receiver holds after probing the pairs. *)
Definition describerAfter (app : string) (pairs : list svcEnv)
    (d0 : option serviceDescriber) : option serviceDescriber :=
  foldl (fun d p =>
    match orc _ (NewServiceDescriber app (svcEnv_envName p) (svcEnv_svcName p))
    with
    | Ok d' => Some d'
    | Err _ => d
    end) d0 pairs.

(** The Candidate Set after the pairs [ds] were retained, in order. *)
Definition retain (ds : list svcEnv) (cs : candidates) : candidates :=
  (foldl (fun m p => <[svcEnv_String p := p]> m) cs.1 ds,
   cs.2 ++ map svcEnv_String ds).

(** Steps 1 and 2 of the algorithm: the candidates, or [None] when
    resolution fails before there are any. *)
Definition serviceCandidates (o : appStatusOpts) : option (list string) :=
  if decide (svcName o = "") then
    match orc _ (ListServices (AppName o)) with
    | Ok (s :: rest) => Some (map Service_Name (s :: rest))
    | _ => None
    end
  else Some [svcName o].

Definition environmentCandidates (o : appStatusOpts) : option (list string) :=
  if decide (envName o = "") then
    match orc _ (ListEnvironments (AppName o)) with
    | Ok (e :: rest) => Some (map Environment_Name (e :: rest))
    | _ => None
    end
  else Some [envName o].

(** The catalog calls of steps 1 and 2. *)
Definition callsOfListing (o : appStatusOpts) : list call :=
  ((if decide (svcName o = "") then
      [Call (ListServices (AppName o)) (orc _ (ListServices (AppName o)))]
    else []) ++
   (if decide (envName o = "") then
      [Call (ListEnvironments (AppName o))
            (orc _ (ListEnvironments (AppName o)))]
    else [])).

(** Step 3: the candidate pairs, in display-key order. *)
Definition candidatePairs (o : appStatusOpts) : option (list svcEnv) :=
  match serviceCandidates o, environmentCandidates o with
  | Some appNames, Some envNames => Some (crossProduct appNames envNames)
  | _, _ => None
  end.

(** Step 4: the filtered set of deployed pairs, in display-key order, when
    every probe of the cross product was settled. *)
Definition filteredSet (o : appStatusOpts) : option (list svcEnv) :=
  match candidatePairs o with
  | Some pairs =>
      if forallb (settled (AppName o)) pairs
      then Some (filter (fun p => deployed (AppName o) p) pairs)
      else None
  | None => None
  end.

End Vocabulary.

(** The trace [t] followed by the trace of [r]. *)
Definition after {X} (t : list call) (r : X * list call) : X * list call :=
  (r.1, t ++ r.2).

(** The loop body on a candidate pair. *)
Abbreviation body :=
  (fun p : svcEnv => checkDeployed (svcEnv_svcName p) (svcEnv_envName p)).

Section Invariant.
Context `{Imports}.

(** The invariant of the Candidate Set: the keys of the sequence are the
    keys of the mapping, and every entry sits under its own display key. *)
Definition wellKeyed (cs : candidates) : Prop :=
  (forall k : string, k ∈ cs.2 <-> is_Some (cs.1 !! k)) /\
  (forall (k : string) (p : svcEnv), cs.1 !! k = Some p -> svcEnv_String p = k).

End Invariant.

(** ** Scenarios *)

(** Concrete collaborators, on which the statements below are run. *)
Module Scenario.

(** The error of a stack that does not exist. *)
Definition stackNotExists : error :=
  errorString "ValidationError: stack does not exist".

(** Modelled from the spec: the display key of a pair is written
    ["api/test"] in the scenarios of the specification; highlighting adds
    nothing to the text; the "not deployed" condition is one recognised
    error. *)
Definition imports : Imports := {|
  HighlightUserInput s := s;
  HighlightCode s := s;
  IsStackNotExistsErr e := bool_decide (e = stackNotExists);
  svcEnv_String p := svcEnv_svcName p +:+ "/" +:+ svcEnv_envName p;
  svcLogNamePrompt := "Which application would you like to show?";
  svcLogNameHelpPrompt := "The deployed applications of the project."
|}.

(** What the collaborators answer. *)
Record world := {
  projects : result (list Application);
  services : result (list Service);
  environments : result (list Environment);
  describer : string -> string -> string -> result serviceDescriber;
  serviceArn : serviceDescriber -> result string;
  selection : list string -> result string
}.

Definition oracleOf (w : world) : oracle :=
  fun X e =>
    match e in event X return X with
    | ListApplications => projects w
    | ListServices _ => services w
    | ListEnvironments _ => environments w
    | GetApplication app => Ok {| Application_Name := app |}
    | GetService _ svc => Ok {| Service_Name := svc |}
    | GetEnvironment _ env => Ok {| Environment_Name := env |}
    | NewServiceDescriber app env svc => describer w app env svc
    | GetServiceArn d => serviceArn w d
    | SelectOne _ _ options => selection w options
    | Infof _ => tt
    end.

Definition newDescriber (app env svc : string) : result serviceDescriber :=
  Ok {| describer_app := app; describer_env := env; describer_svc := svc |}.

(** The ARN of the pairs listed, "not deployed" for the others. *)
Definition deployedIn (live : list (string * string)) (d : serviceDescriber)
    : result string :=
  if bool_decide ((describer_svc d, describer_env d) ∈ live)
  then Ok ("arn:" +:+ describer_svc d +:+ ":" +:+ describer_env d)
  else Err stackNotExists.

Definition pair (svc env : string) : svcEnv :=
  {| svcEnv_svcName := svc; svcEnv_envName := env |}.

(** Project "coffee", services api and web, environments test and prod;
    deployed are (api, test) and (web, prod); the human picks [choice]. *)
Definition coffee (live : list (string * string)) (choice : result string)
    : world := {|
  projects := Ok [ {| Application_Name := "coffee" |};
                   {| Application_Name := "tea" |} ];
  services := Ok [ {| Service_Name := "api" |}; {| Service_Name := "web" |} ];
  environments := Ok [ {| Environment_Name := "test" |};
                       {| Environment_Name := "prod" |} ];
  describer := newDescriber;
  serviceArn := deployedIn live;
  selection := fun _ => choice
|}.

Definition twoLive : list (string * string) :=
  [("api", "test"); ("web", "prod")].

(** The same project when the probe of (api, prod) is refused. *)
Definition accessDenied : error := errorString "AccessDenied".

Definition refused : world := {|
  projects := projects (coffee twoLive (Ok "web/prod"));
  services := services (coffee twoLive (Ok "web/prod"));
  environments := environments (coffee twoLive (Ok "web/prod"));
  describer := newDescriber;
  serviceArn := fun d =>
    if bool_decide ((describer_svc d, describer_env d) = ("api", "prod"))
    then Err accessDenied else deployedIn twoLive d;
  selection := fun _ => Ok "web/prod"
|}.

(** The same project when no describer can be created. *)
Definition sessionExpired : error := errorString "session expired".

Definition expired : world := {|
  projects := projects (coffee twoLive (Ok "web/prod"));
  services := services (coffee twoLive (Ok "web/prod"));
  environments := environments (coffee twoLive (Ok "web/prod"));
  describer := fun _ _ _ => Err sessionExpired;
  serviceArn := deployedIn twoLive;
  selection := fun _ => Ok "web/prod"
|}.

(** The receiver as the flags leave it. *)
Definition flags (app svc env : string) : appStatusOpts :=
  {| appName := app; shouldOutputJSON := false;
     svcName := svc; envName := env; appDescriber := None |}.

(** The interrupt of the prompt. *)
Definition interrupt : error := errorString "interrupt".

End Scenario.

(** [sub] occurs in [s]. *)
Definition mentions (s sub : string) : bool :=
  match String.index 0 sub s with
  | Some _ => true
  | None => false
  end.

(** ** Further vocabulary *)

(** The error of a Go [(value, error)] return, [None] for [nil]. *)
Definition failureOf {A} (r : result A) : option error :=
  match r with
  | Ok _ => None
  | Err err => Some err
  end.

(** A sequence of lookups, each with the error it returned, as far as the
    first one that failed: that error, and the lookups made. *)
Fixpoint untilFailure (ls : list (call * option error))
    : option error * list call :=
  match ls with
  | [] => (None, [])
  | (c, None) :: rest => ((untilFailure rest).1, c :: (untilFailure rest).2)
  | (c, Some err) :: _ => (Some err, [c])
  end.

Section ValidationVocabulary.
Variable orc : oracle.

(** The lookups of [Validate]: one for each identifier that is supplied,
    the project first, then the service, then the environment. *)
Definition validationLookups (o : appStatusOpts)
    : list (call * option error) :=
  (if decide (AppName o = "") then []
   else [(Call (GetApplication (AppName o))
               (orc _ (GetApplication (AppName o))),
          failureOf (orc _ (GetApplication (AppName o))))]) ++
  (if decide (svcName o = "") then []
   else [(Call (GetService (AppName o) (svcName o))
               (orc _ (GetService (AppName o) (svcName o))),
          failureOf (orc _ (GetService (AppName o) (svcName o))))]) ++
  (if decide (envName o = "") then []
   else [(Call (GetEnvironment (AppName o) (envName o))
               (orc _ (GetEnvironment (AppName o) (envName o))),
          failureOf (orc _ (GetEnvironment (AppName o) (envName o))))]).

End ValidationVocabulary.

Section ListingVocabulary.
Context `{Imports}.
Variable orc : oracle.

(** The calls of step 1 alone. *)
Definition callsOfServiceListing (o : appStatusOpts) : list call :=
  if decide (svcName o = "") then
    [Call (ListServices (AppName o)) (orc _ (ListServices (AppName o)))]
  else [].

(** The error of step 1, when there are no service candidates. *)
Definition serviceListingFailure (o : appStatusOpts) : error :=
  match orc _ (ListServices (AppName o)) with
  | Err cause =>
      Errorf_w ("list applications for project " +:+ AppName o +:+ ": ")
               cause
  | Ok _ =>
      errorString ("no applications found in project "
                   +:+ HighlightUserInput (AppName o))
  end.

(** The error of step 2, when there are no environment candidates. *)
Definition environmentListingFailure (o : appStatusOpts) : error :=
  match orc _ (ListEnvironments (AppName o)) with
  | Err cause =>
      Errorf_w ("list environments for project " +:+ AppName o +:+ ": ")
               cause
  | Ok _ =>
      errorString ("no environments found in project "
                   +:+ HighlightUserInput (AppName o))
  end.

End ListingVocabulary.

(** The describers that the creations of a trace returned, in order. *)
Definition createdCall (c : call) : option serviceDescriber :=
  match c with
  | Call (NewServiceDescriber _ _ _) (Ok d) => Some d
  | _ => None
  end.

Definition createdDescribers (tr : list call) : list serviceDescriber :=
  omap createdCall tr.

(** The (project, environment, service) triple of a candidate pair. *)
Definition tripleOf (app : string) (p : svcEnv) : string * string * string :=
  (app, svcEnv_envName p, svcEnv_svcName p).

(** The bytes that [toLowerByte] maps to [c]: a lower-case letter and its
    upper-case form, no byte for an upper-case letter, the byte itself
    otherwise. *)
Definition spellingsOfByte (c : Ascii.ascii) : list Ascii.ascii :=
  let n := Ascii.nat_of_ascii c in
  if (97 <=? n)%nat && (n <=? 122)%nat then [c; Ascii.ascii_of_nat (n - 32)]
  else if (65 <=? n)%nat && (n <=? 90)%nat then []
  else [c].

(** The spellings of [s] in upper and lower case. *)
Fixpoint spellings (s : string) : list string :=
  match s with
  | EmptyString => [EmptyString]
  | String c rest =>
      c' ← spellingsOfByte c; v ← spellings rest; [String c' v]
  end.

(** ** [Execute] *)

Module status.

(** Modelled from the spec: [describe.AppStatusDesc] is declared outside
    the files at hand; the status payload, by its two renderings. *)
Record AppStatusDesc := {
  JSONString : result string;
  HumanString : string
}.

(** Modelled from the spec: the status describer of [describe.NewAppStatus]
    is declared outside the files at hand; it is created for a project, an
    environment and a service. *)
Record statusDescriber := {
  status_app : string;
  status_env : string;
  status_svc : string
}.

(** The calls of [Execute]: the creation of the status describer, its
    [Describe], and [fmt.Fprintf(o.w, format)] with no further argument. *)
Inductive action : Type -> Type :=
| NewAppStatus (app env svc : string) : action (result statusDescriber)
| Describe (d : statusDescriber) : action (result AppStatusDesc)
| Fprintf (format : string) : action unit.

Inductive script (A : Type) : Type :=
| Finish (a : A)
| Step {X : Type} (e : action X) (k : X -> script A).
Arguments Finish {A} a.
Arguments Step {A X} e k.

Definition answers : Type := forall X, action X -> X.

Inductive step : Type :=
| Made {X : Type} (e : action X) (r : X).

Fixpoint play {A} (ans : answers) (p : script A) : A * list step :=
  match p with
  | Finish a => (a, [])
  | Step e k =>
      let r := ans _ e in
      let '(a, tr) := play ans (k r) in
      (a, Made e r :: tr)
  end.

(** The receiver of [Execute]: the variables and the status describer
    installed by [initStatusDescriber]; [nil] is [None]. *)
Record executeOpts := {
  vars : appStatusOpts;
  installed : option statusDescriber
}.

(** A method of the receiver: how it ends, and the receiver then. *)
Definition method : Type := executeOpts -> script (outcome unit * executeOpts).

(** [if err := m(o); err != nil { return err }], then [k]. *)
Definition andThen (m k : method) : method :=
  fun o =>
    (fix go (p : script (outcome unit * executeOpts)) :=
       match p with
       | Finish (Done _, o') => k o'
       | Finish (r, o') => Finish (r, o')
       | Step e c => Step e (fun x => go (c x))
       end) (m o).

(** The [initStatusDescriber] that [newAppStatusOpts] installs. *)
Definition initStatusDescriber : method :=
  fun o =>
    Step (NewAppStatus (AppName (vars o)) (envName (vars o))
                       (svcName (vars o)))
      (fun r =>
         match r with
         | Err err =>
             Finish
               (Failed
                  (Errorf_w ("creating status describer for application "
                             +:+ svcName (vars o) +:+ " in project "
                             +:+ AppName (vars o) +:+ ": ") err), o)
         | Ok d =>
             Finish (Done tt, {| vars := vars o; installed := Some d |})
         end).

(** [Execute], after [initStatusDescriber]: a method call on a [nil]
    describer panics. *)
Definition describeAndPrint : method :=
  fun o =>
    match installed o with
    | None => Finish (Panicked, o)
    | Some d =>
        Step (Describe d)
          (fun r =>
             match r with
             | Err err =>
                 Finish
                   (Failed
                      (Errorf_w ("describe status of application "
                                 +:+ svcName (vars o) +:+ ": ") err), o)
             | Ok appStatus =>
                 if shouldOutputJSON (vars o) then
                   match JSONString appStatus with
                   | Err err => Finish (Failed err, o)
                   | Ok data =>
                       Step (Fprintf data) (fun _ => Finish (Done tt, o))
                   end
                 else
                   Step (Fprintf (HumanString appStatus))
                        (fun _ => Finish (Done tt, o))
             end)
    end.

(** [Execute] shows the applications through the prompt. *)
Definition Execute : method := andThen initStatusDescriber describeAndPrint.

(** The format strings of the [fmt.Fprintf] calls on [o.w], in order. *)
Definition formats (tr : list step) : list string :=
  omap (fun s => match s with
                 | Made (Fprintf format) _ => Some format
                 | _ => None
                 end) tr.

(** The writes to [o.w], in order, each by the format string of its
    [fmt.Fprintf] call: the text that reaches [o.w] is what [fmt] prints
    for that format, which is the format itself only when it holds no
    [%]. *)
Definition written (tr : list step) : list string := formats tr.

(** The status describers asked to [Describe], in order. *)
Definition described (tr : list step) : list statusDescriber :=
  omap (fun s => match s with
                 | Made (Describe d) _ => Some d
                 | _ => None
                 end) tr.

(** The triples for which a status describer was created, in order. *)
Definition created (tr : list step) : list (string * string * string) :=
  omap (fun s => match s with
                 | Made (NewAppStatus app env svc) _ => Some (app, env, svc)
                 | _ => None
                 end) tr.

End status.

(** ** Further scenarios *)

Module Cases.
Import Scenario.

Definition withProjects (r : result (list Application)) (w : world) : world :=
  {| projects := r; services := services w; environments := environments w;
     describer := describer w; serviceArn := serviceArn w;
     selection := selection w |}.

Definition withServices (r : result (list Service)) (w : world) : world :=
  {| projects := projects w; services := r; environments := environments w;
     describer := describer w; serviceArn := serviceArn w;
     selection := selection w |}.

Definition withEnvironments (r : result (list Environment)) (w : world)
    : world :=
  {| projects := projects w; services := services w; environments := r;
     describer := describer w; serviceArn := serviceArn w;
     selection := selection w |}.

(** The datastore of [w] when it does not know the service [missing]. *)
Definition notFound (name : string) : error :=
  errorString ("couldn't find application " +:+ name).

Definition withoutService (missing : string) (w : world) : oracle :=
  fun X e =>
    match e in event X return X with
    | GetService _ svc =>
        if bool_decide (svc = missing) then Err (notFound svc)
        else Ok {| Service_Name := svc |}
    | e' => oracleOf w _ e'
    end.

(** The project of the scenarios, with its two deployed pairs. *)
Definition shop : world := coffee twoLive (Ok "web/prod").

(** A status and the collaborators of [Execute] that report it. *)
Definition active : status.AppStatusDesc :=
  {| status.JSONString := Ok "{status: ACTIVE}";
     status.HumanString := "Status: ACTIVE" |}.

Definition reporting (described : result status.AppStatusDesc)
    : status.answers :=
  fun X e =>
    match e in status.action X return X with
    | status.NewAppStatus app env svc =>
        Ok {| status.status_app := app; status.status_env := env;
              status.status_svc := svc |}
    | status.Describe _ => described
    | status.Fprintf _ => tt
    end.

Definition resolved (json : bool) : status.executeOpts :=
  {| status.vars :=
       {| appName := "coffee"; shouldOutputJSON := json;
          svcName := "api"; envName := "test"; appDescriber := None |};
     status.installed := None |}.

End Cases.

(** * Properties *)

(** ** Strings *)

Lemma toLowerByte_idempotent c :
  color.toLowerByte (color.toLowerByte c) = color.toLowerByte c.
Proof. by destruct c as [[] [] [] [] [] [] [] []]. Qed.

Lemma ToLower_idempotent s : color.ToLower (color.ToLower s) = color.ToLower s.
Proof.
  induction s as [| c s IH]; [done |].
  cbn [color.ToLower]. by rewrite toLowerByte_idempotent, IH.
Qed.

(** The bytes that [toLowerByte] maps to a byte are its spellings, and the
    strings that [ToLower] maps to a string are its spellings. *)
Lemma toLowerByte_spellings c a :
  color.toLowerByte c = a <-> c ∈ spellingsOfByte a.
Proof.
  split.
  - intros <-.
    destruct c as [[] [] [] [] [] [] [] []];
      apply (bool_decide_unpack _); by vm_compute.
  - intros Hin.
    destruct a as [[] [] [] [] [] [] [] []]; vm_compute in Hin;
      repeat (apply elem_of_cons in Hin as [-> | Hin]);
      solve [reflexivity | by apply elem_of_nil in Hin].
Qed.

Lemma ToLower_spellings value s :
  color.ToLower value = s <-> value ∈ spellings s.
Proof.
  revert s. induction value as [| c value IH]; intros [| a s]; cbn.
  - by rewrite list_elem_of_singleton.
  - split; [done |].
    intros (c' & (v & Hv & _)%list_elem_of_bind & _)%list_elem_of_bind.
    by apply list_elem_of_singleton in Hv.
  - by rewrite list_elem_of_singleton.
  - rewrite list_elem_of_bind. split.
    + intros [= Hc Hs]. exists c. split; [| by apply toLowerByte_spellings].
      apply list_elem_of_bind. exists value.
      split; [by apply list_elem_of_singleton | by apply IH].
    + intros (c' & (v & Hv & Hvs)%list_elem_of_bind & Hc).
      apply list_elem_of_singleton in Hv. injection Hv as -> ->.
      f_equal; [by apply toLowerByte_spellings | by apply IH].
Qed.

Lemma append_assoc (s1 s2 s3 : string) :
  (s1 +:+ s2) +:+ s3 = s1 +:+ (s2 +:+ s3).
Proof.
  induction s1 as [| c s1 IH]; [done |].
  change (String c ((s1 +:+ s2) +:+ s3) = String c (s1 +:+ (s2 +:+ s3))).
  by f_equal.
Qed.

(** ** Running programs *)

Lemma after_nil {X} (r : X * list call) : after [] r = r.
Proof. by destruct r. Qed.

Lemma after_after {X} t1 t2 (r : X * list call) :
  after t1 (after t2 r) = after (t1 ++ t2) r.
Proof. unfold after; simpl. by rewrite app_assoc. Qed.

Lemma run_pbind {A B} orc (p : prog A) (f : A -> prog B) :
  run orc (pbind p f) = after (run orc p).2 (run orc (f (run orc p).1)).
Proof.
  induction p as [a | X e k IH]; simpl.
  - by rewrite after_nil.
  - rewrite IH. destruct (run orc (k (orc X e))) as [a t]; simpl.
    by destruct (run orc (f a)).
Qed.

Lemma exec_bind {A B} orc (m : M A) (f : A -> M B) o :
  exec orc (bind m f) o =
  match (exec orc m o).1.1 with
  | Done a => after (exec orc m o).2 (exec orc (f a) (exec orc m o).1.2)
  | Failed err => (Failed err, (exec orc m o).1.2, (exec orc m o).2)
  | Panicked => (Panicked, (exec orc m o).1.2, (exec orc m o).2)
  end.
Proof.
  unfold exec, bind. rewrite run_pbind.
  destruct (run orc (m o)) as [[[a | err |] o1] t1]; simpl; try done.
  all: unfold after; simpl; by rewrite app_nil_r.
Qed.

Lemma exec_bind_done {A B} orc (m : M A) (f : A -> M B) o a o1 t1 :
  exec orc m o = (Done a, o1, t1) ->
  exec orc (bind m f) o = after t1 (exec orc (f a) o1).
Proof. intros E. by rewrite exec_bind, E. Qed.

Lemma exec_bind_failed {A B} orc (m : M A) (f : A -> M B) o err o1 t1 :
  exec orc m o = (Failed err, o1, t1) ->
  exec orc (bind m f) o = (Failed err, o1, t1).
Proof. intros E. by rewrite exec_bind, E. Qed.

Lemma exec_bind_assoc {A B C} orc (m : M A) (f : A -> M B) (g : B -> M C) o :
  exec orc (bind (bind m f) g) o = exec orc (bind m (fun a => bind (f a) g)) o.
Proof.
  rewrite !exec_bind.
  destruct (exec orc m o) as [[[a | err |] o1] t1]; simpl; try done.
  rewrite exec_bind.
  destruct (exec orc (f a) o1) as [[[b | err |] o2] t2]; simpl; try done.
  by rewrite after_after.
Qed.

Lemma exec_bind_ext {A B} orc (m : M A) (f g : A -> M B) o :
  (forall a o1, exec orc (f a) o1 = exec orc (g a) o1) ->
  exec orc (bind m f) o = exec orc (bind m g) o.
Proof.
  intros E. rewrite !exec_bind.
  destruct (exec orc m o) as [[[a | err |] o1] t1]; simpl; try done.
  by rewrite E.
Qed.

Lemma exec_bind_ret {A} orc (m : M A) o :
  exec orc (bind m ret) o = exec orc m o.
Proof.
  rewrite exec_bind.
  destruct (exec orc m o) as [[[a | err |] o1] t1]; simpl; try done.
  unfold after; simpl. by rewrite app_nil_r.
Qed.

(** ** Loops *)

Lemma forRange_app {A S} orc (l1 l2 : list A) (body : A -> S -> M S) s o :
  exec orc (forRange (l1 ++ l2) body s) o =
  exec orc (bind (forRange l1 body s) (forRange l2 body)) o.
Proof.
  revert s o. induction l1 as [| x l1 IH]; intros s o; simpl.
  - rewrite exec_bind. simpl. by rewrite after_nil.
  - rewrite exec_bind_assoc. apply exec_bind_ext. intros s1 o1. apply IH.
Qed.

(** Two nested loops are one loop over the cross product. *)
Lemma forRange_nested {S} orc (appNames envNames : list string)
    (body : string -> string -> S -> M S) s o :
  exec orc (forRange appNames (fun appName =>
              forRange envNames (fun envName => body appName envName)) s) o =
  exec orc (forRange (crossProduct appNames envNames)
              (fun p => body (svcEnv_svcName p) (svcEnv_envName p)) s) o.
Proof.
  revert s o. induction appNames as [| a rest IH]; intros s o; [done |].
  cbn [forRange crossProduct flat_map]. rewrite forRange_app.
  rewrite !exec_bind.
  assert (E : forall l s o, exec orc (forRange l (fun envName => body a envName) s) o =
    exec orc (forRange (map (fun envName => {| svcEnv_svcName := a; svcEnv_envName := envName |}) l)
               (fun p => body (svcEnv_svcName p) (svcEnv_envName p)) s) o).
  { clear. induction l as [| e l IH]; intros s o; [done |].
    cbn [forRange map]. apply exec_bind_ext. intros; apply IH. }
  rewrite E.
  destruct (exec orc _ o) as [[[s1 | err |] o1] t1]; simpl; try done.
  by rewrite IH.
Qed.

Lemma exec_ret {A} orc (a : A) o : exec orc (ret a) o = (Done a, o, []).
Proof. done. Qed.
Lemma exec_fail {A} orc err o : exec orc (@fail A err) o = (Failed err, o, []).
Proof. done. Qed.
Lemma exec_receiver orc o : exec orc receiver o = (Done o, o, []).
Proof. done. Qed.
Lemma exec_update orc f o : exec orc (update f) o = (Done tt, f o, []).
Proof. done. Qed.
Lemma exec_perform {X} orc (e : event X) o :
  exec orc (perform e) o = (Done (orc X e), o, [Call e (orc X e)]).
Proof. done. Qed.

(** ** Probing *)

Section Probing.
Context `{Imports}.
Variable orc : oracle.

Lemma set_appDescriber_id o : set_appDescriber (appDescriber o) o = o.
Proof. by destruct o. Qed.

(** One iteration, by the outcome of its probe. *)
Lemma exec_checkDeployed appName envName cs o :
  let p := {| svcEnv_svcName := appName; svcEnv_envName := envName |} in
  let o' := set_appDescriber
              (describerAfter orc (AppName o) [p] (appDescriber o)) o in
  exec orc (checkDeployed appName envName cs) o =
  (match probe orc (AppName o) p with
   | Deployed => Done (retain [p] cs)
   | NotDeployed => Done cs
   | DescriberFailed cause =>
       Failed (Errorf_w ("creating stack describer for project "
                         +:+ AppName o +:+ ": ") cause)
   | ProbeError cause =>
       Failed (Errorf_w ("check if app " +:+ appName
                         +:+ " is deployed in env " +:+ envName +:+ ": ")
                        cause)
   end, o', callsOfProbe orc (AppName o) p).
Proof.
  intros p o'. subst p o'.
  unfold checkDeployed, initAppDescriber, getServiceArn, probe, callsOfProbe,
    describerAfter, retain, exec, bind, receiver, perform, update, fail, ret.
  cbn [foldl map fst snd pbind run svcEnv_svcName svcEnv_envName].
  destruct (orc _ (NewServiceDescriber (AppName o) envName appName))
    as [d | cause]; cbn [foldl map fst snd pbind run appDescriber set_appDescriber].
  - destruct (orc _ (GetServiceArn d)) as [arn | cause];
      cbn [fst snd pbind run]; [done |].
    by destruct (IsStackNotExistsErr cause).
  - by rewrite set_appDescriber_id.
Qed.
Lemma AppName_set_appDescriber d o :
  AppName (set_appDescriber d o) = AppName o.
Proof. done. Qed.

Lemma retain_cons p ds cs : retain (p :: ds) cs = retain ds (retain [p] cs).
Proof.
  unfold retain; simpl. f_equal. by rewrite <- app_assoc.
Qed.

Lemma retain_nil cs : retain [] cs = cs.
Proof. destruct cs as [m l]. unfold retain; simpl. by rewrite app_nil_r. Qed.

Lemma settled_cases app p :
  settled orc app p = true ->
  probe orc app p = Deployed \/ probe orc app p = NotDeployed.
Proof.
  unfold settled. intros E. apply orb_true_iff in E as [E | E];
    apply bool_decide_eq_true in E; auto.
Qed.

Lemma exec_body p cs o :
  exec orc (body p cs) o =
  (match probe orc (AppName o) p with
   | Deployed => Done (retain [p] cs)
   | NotDeployed => Done cs
   | DescriberFailed cause =>
       Failed (Errorf_w ("creating stack describer for project "
                         +:+ AppName o +:+ ": ") cause)
   | ProbeError cause =>
       Failed (Errorf_w ("check if app " +:+ svcEnv_svcName p
                         +:+ " is deployed in env " +:+ svcEnv_envName p
                         +:+ ": ") cause)
   end,
   set_appDescriber (describerAfter orc (AppName o) [p] (appDescriber o)) o,
   callsOfProbe orc (AppName o) p).
Proof. destruct p as [a e]. apply (exec_checkDeployed a e cs o). Qed.

(** Probing pairs whose probes are all settled: every pair is probed, the
    deployed ones are retained in order. *)
Lemma probing_settled pairs cs o :
  forallb (settled orc (AppName o)) pairs = true ->
  exec orc (forRange pairs body cs) o =
  (Done (retain (filter (fun p => deployed orc (AppName o) p) pairs) cs),
   set_appDescriber
     (describerAfter orc (AppName o) pairs (appDescriber o)) o,
   flat_map (callsOfProbe orc (AppName o)) pairs).
Proof.
  revert cs o. induction pairs as [| p rest IH]; intros cs o Hs.
  - simpl. rewrite retain_nil, set_appDescriber_id. done.
  - simpl in Hs. apply andb_true_iff in Hs as [Hp Hrest].
    cbn [forRange]. rewrite exec_bind, exec_body. cbn [fst snd].
    assert (D : deployed orc (AppName o) p
                = bool_decide (probe orc (AppName o) p = Deployed)) by done.
    rewrite filter_cons.
    destruct (settled_cases _ _ Hp) as [E | E]; rewrite E in D |- *;
      rewrite IH by done; destruct (decide _) as [T | T];
      rewrite D in T; try done.
    by rewrite (retain_cons p (filter _ rest) cs).
Qed.

(** Probing stops at the first pair whose probe is not settled. *)
Lemma probing_stops before p rest cs o :
  forallb (settled orc (AppName o)) before = true ->
  settled orc (AppName o) p = false ->
  exec orc (forRange (before ++ p :: rest) body cs) o =
  (match probe orc (AppName o) p with
   | DescriberFailed cause =>
       Failed (Errorf_w ("creating stack describer for project "
                         +:+ AppName o +:+ ": ") cause)
   | ProbeError cause =>
       Failed (Errorf_w ("check if app " +:+ svcEnv_svcName p
                         +:+ " is deployed in env " +:+ svcEnv_envName p
                         +:+ ": ") cause)
   | _ => Panicked
   end,
   set_appDescriber
     (describerAfter orc (AppName o) (before ++ [p]) (appDescriber o)) o,
   flat_map (callsOfProbe orc (AppName o)) (before ++ [p])).
Proof.
  intros Hb Hp. rewrite forRange_app, exec_bind, probing_settled by done.
  cbn [fst snd forRange]. rewrite exec_bind, exec_body. cbn [fst snd].
  unfold describerAfter. rewrite foldl_app, flat_map_app. cbn [flat_map].
  rewrite app_nil_r. unfold settled in Hp.
  rewrite !AppName_set_appDescriber.
  destruct (probe orc (AppName o) p); done || (by vm_compute in Hp).
Qed.

(** After a pair that is not deployed, probing goes on with the rest, on
    the Candidate Set as it was. *)
Lemma probing_continues before p rest cs o :
  forallb (settled orc (AppName o)) before = true ->
  probe orc (AppName o) p = NotDeployed ->
  exec orc (forRange (before ++ p :: rest) body cs) o =
  after (flat_map (callsOfProbe orc (AppName o)) (before ++ [p]))
    (exec orc
       (forRange rest body
          (retain (filter (fun p => deployed orc (AppName o) p) before) cs))
       (set_appDescriber
          (describerAfter orc (AppName o) (before ++ [p]) (appDescriber o))
          o)).
Proof.
  intros Hb Hp. rewrite forRange_app, exec_bind, probing_settled by done.
  cbn [fst snd forRange]. rewrite exec_bind, exec_body.
  rewrite !AppName_set_appDescriber, Hp. cbn [fst snd].
  rewrite after_after. unfold describerAfter.
  rewrite foldl_app, flat_map_app. cbn [flat_map]. by rewrite app_nil_r.
Qed.

Lemma exec_buildCandidates appNames envNames o :
  exec orc (buildCandidates appNames envNames) o =
  exec orc (forRange (crossProduct appNames envNames) body (∅, [])) o.
Proof. unfold buildCandidates. apply forRange_nested. Qed.

End Probing.

(** ** The Candidate Set *)

Section CandidateSet.
Context `{Imports}.

Lemma wellKeyed_empty : wellKeyed (∅, []).
Proof.
  split; simpl.
  - intros k. rewrite lookup_empty. split; [by intros ?%elem_of_nil |].
    by intros [? ?].
  - intros k p. by rewrite lookup_empty.
Qed.

Lemma wellKeyed_retain_one p cs : wellKeyed cs -> wellKeyed (retain [p] cs).
Proof.
  intros [Hk He]. split; simpl.
  - intros k. rewrite elem_of_app, list_elem_of_singleton, Hk.
    destruct (decide (svcEnv_String p = k)) as [<- | Hne].
    + rewrite lookup_insert_eq. split; eauto.
    + rewrite lookup_insert_ne by done. split; [| auto].
      intros [? | ?]; [done | congruence].
  - intros k q. destruct (decide (svcEnv_String p = k)) as [<- | Hne].
    + rewrite lookup_insert_eq. by intros [= <-].
    + rewrite lookup_insert_ne by done. apply He.
Qed.

Lemma wellKeyed_retain ds cs : wellKeyed cs -> wellKeyed (retain ds cs).
Proof.
  revert cs. induction ds as [| p ds IH]; intros cs Hcs.
  - by rewrite retain_nil.
  - rewrite retain_cons. by apply IH, wellKeyed_retain_one.
Qed.

Lemma retain_names ds : (retain ds (∅, [])).2 = map svcEnv_String ds.
Proof. done. Qed.

Lemma retain_lookup_missing ds (k : string) :
  k ∉ map svcEnv_String ds -> (retain ds (∅, [])).1 !! k = None.
Proof.
  intros Hk. destruct (wellKeyed_retain ds _ wellKeyed_empty) as [Hkeys _].
  apply eq_None_not_Some. by rewrite <- Hkeys.
Qed.

Lemma retain_lookup_one p : (retain [p] (∅, [])).1 !! svcEnv_String p = Some p.
Proof. simpl. apply lookup_insert_eq. Qed.

End CandidateSet.

(** ** Reading traces *)

Lemma omap_flat_map_nil {A B C} (f : B -> option C) (g : A -> list B) l :
  (forall x, omap f (g x) = []) -> omap f (flat_map g l) = [].
Proof.
  intros E. induction l as [| x l IH]; [done |].
  cbn [flat_map]. by rewrite omap_app, E, IH.
Qed.

Section Traces.
Context `{Imports}.
Variable orc : oracle.

Lemma chooserCalls_callsOfProbe app pairs :
  chooserCalls (flat_map (callsOfProbe orc app) pairs) = [].
Proof.
  apply omap_flat_map_nil. intros p. unfold callsOfProbe.
  by destruct (orc _ _).
Qed.

Lemma notices_callsOfProbe app pairs :
  notices (flat_map (callsOfProbe orc app) pairs) = [].
Proof.
  apply omap_flat_map_nil. intros p. unfold callsOfProbe.
  by destruct (orc _ _).
Qed.

Lemma listingCalls_callsOfProbe app pairs :
  listingCalls (flat_map (callsOfProbe orc app) pairs) = [].
Proof.
  unfold listingCalls. induction pairs as [| p pairs IH]; [done |].
  cbn [flat_map]. rewrite filter_app, IH, app_nil_r.
  unfold callsOfProbe. by destruct (orc _ _).
Qed.

Lemma probesIssued_callsOfProbe app pairs :
  probesIssued (flat_map (callsOfProbe orc app) pairs) =
  map (fun p => (app, svcEnv_envName p, svcEnv_svcName p)) pairs.
Proof.
  unfold probesIssued. induction pairs as [| p pairs IH]; [done |].
  cbn [flat_map map]. rewrite omap_app, IH.
  unfold callsOfProbe. by destruct (orc _ _).
Qed.

Lemma chooserCalls_callsOfListing o : chooserCalls (callsOfListing orc o) = [].
Proof. unfold callsOfListing. by repeat case_decide. Qed.

Lemma notices_callsOfListing o : notices (callsOfListing orc o) = [].
Proof. unfold callsOfListing. by repeat case_decide. Qed.

Lemma probesIssued_callsOfListing o : probesIssued (callsOfListing orc o) = [].
Proof. unfold callsOfListing. by repeat case_decide. Qed.

End Traces.

(** ** Resolution *)

Section Resolution.
Context `{Imports}.
Variable orc : oracle.

Lemma exec_retrieveAllAppNames o :
  exec orc retrieveAllAppNames o =
  (match orc _ (ListServices (AppName o)) with
   | Ok apps => Done (map Service_Name apps)
   | Err err =>
       Failed (Errorf_w ("list applications for project "
                         +:+ AppName o +:+ ": ") err)
   end, o,
   [Call (ListServices (AppName o)) (orc _ (ListServices (AppName o)))]).
Proof.
  unfold retrieveAllAppNames, exec, bind, receiver, perform; simpl.
  by destruct (orc _ (ListServices (AppName o))).
Qed.

Lemma exec_retrieveAllEnvNames o :
  exec orc retrieveAllEnvNames o =
  (match orc _ (ListEnvironments (AppName o)) with
   | Ok envs => Done (map Environment_Name envs)
   | Err err =>
       Failed (Errorf_w ("list environments for project "
                         +:+ AppName o +:+ ": ") err)
   end, o,
   [Call (ListEnvironments (AppName o))
         (orc _ (ListEnvironments (AppName o)))]).
Proof.
  unfold retrieveAllEnvNames, exec, bind, receiver, perform; simpl.
  by destruct (orc _ (ListEnvironments (AppName o))).
Qed.

Lemma exec_askAppEnvName o appNames envNames :
  serviceCandidates orc o = Some appNames ->
  environmentCandidates orc o = Some envNames ->
  exec orc askAppEnvName o =
  after (callsOfListing orc o)
    (exec orc (bind (buildCandidates appNames envNames) selectDeployed) o).
Proof.
  unfold serviceCandidates, environmentCandidates, callsOfListing,
    askAppEnvName.
  intros Hs He.
  rewrite exec_bind, exec_receiver. cbn [fst snd]. rewrite after_nil.
  erewrite (exec_bind_done orc _ _ o appNames o
              (if decide (svcName o = "") then
                 [Call (ListServices (AppName o))
                       (orc _ (ListServices (AppName o)))]
               else [])).
  2:{ destruct (decide (svcName o = "")) as [Es | Es].
      - rewrite exec_bind, exec_retrieveAllAppNames. cbn [fst snd].
        destruct (orc _ (ListServices (AppName o))) as [[| s svcs] | err];
          try done.
        injection Hs as <-. cbn [map length].
        rewrite decide_False by done. rewrite exec_ret. reflexivity.
      - injection Hs as <-. rewrite exec_ret. reflexivity. }
  rewrite exec_bind, exec_receiver. cbn [fst snd]. rewrite after_nil.
  erewrite (exec_bind_done orc _ _ o envNames o
              (if decide (envName o = "") then
                 [Call (ListEnvironments (AppName o))
                       (orc _ (ListEnvironments (AppName o)))]
               else [])).
  2:{ destruct (decide (envName o = "")) as [Es | Es].
      - rewrite exec_bind, exec_retrieveAllEnvNames. cbn [fst snd].
        destruct (orc _ (ListEnvironments (AppName o))) as [[| e envs] | err];
          try done.
        injection He as <-. cbn [map length].
        rewrite decide_False by done. rewrite exec_ret. reflexivity.
      - injection He as <-. rewrite exec_ret. reflexivity. }
  by rewrite after_after.
Qed.
(** The end of the resolution on the Candidate Set that retains [ds]. *)
Lemma exec_selectDeployed ds o :
  exec orc (selectDeployed (retain ds (∅, []))) o =
  match ds with
  | [] =>
      (Failed (errorString ("no deployed apps found in project "
                            +:+ HighlightUserInput (AppName o))), o, [])
  | [p] =>
      let msg := "Only found one deployed app, defaulting to: "
                 +:+ HighlightUserInput (svcEnv_String p) +:+ newline in
      (Done tt,
       set_envName (svcEnv_envName p) (set_svcName (svcEnv_svcName p) o),
       [Call (Infof msg) (orc _ (Infof msg))])
  | _ =>
      let e := SelectOne svcLogNamePrompt svcLogNameHelpPrompt
                         (map svcEnv_String ds) in
      match orc _ e with
      | Err err =>
          (Failed (Errorf_w ("select deployed applications for project "
                             +:+ AppName o +:+ ": ") err), o,
           [Call e (Err err)])
      | Ok appEnvName =>
          let appEnv :=
            default svcEnv_zero ((retain ds (∅, [])).1 !! appEnvName) in
          (Done tt,
           set_envName (svcEnv_envName appEnv)
             (set_svcName (svcEnv_svcName appEnv) o),
           [Call e (Ok appEnvName)])
      end
  end.
Proof.
  unfold selectDeployed. rewrite retain_names.
  destruct ds as [| p [| q ds]]; cbn [map].
  - done.
  - rewrite retain_lookup_one. done.
  - unfold exec, bind, perform, receiver, update, fail.
    cbn [pbind run fst snd].
    by destruct (orc _ (SelectOne _ _ _)).
Qed.

(** Resolution when every probe of the cross product is settled: the
    listing calls, the probes of all the candidate pairs, then the end of
    the resolution on the deployed pairs. *)
Lemma exec_askAppEnvName_settled o pairs :
  candidatePairs orc o = Some pairs ->
  forallb (settled orc (AppName o)) pairs = true ->
  exec orc askAppEnvName o =
  after (callsOfListing orc o ++
         flat_map (callsOfProbe orc (AppName o)) pairs)
    (exec orc
       (selectDeployed
          (retain (filter (fun p => deployed orc (AppName o) p) pairs)
                  (∅, [])))
       (set_appDescriber
          (describerAfter orc (AppName o) pairs (appDescriber o)) o)).
Proof.
  unfold candidatePairs. intros Hc Hs.
  destruct (serviceCandidates orc o) as [appNames |] eqn:Ea; [| done].
  destruct (environmentCandidates orc o) as [envNames |] eqn:Ee; [| done].
  injection Hc as <-.
  rewrite (exec_askAppEnvName o appNames envNames) by done.
  rewrite exec_bind, exec_buildCandidates, probing_settled by done.
  cbn [fst snd]. by rewrite after_after.
Qed.

(** Resolution when a probe of the cross product is not settled. *)
Lemma exec_askAppEnvName_stops o (before : list svcEnv) p rest :
  candidatePairs orc o = Some (before ++ p :: rest) ->
  forallb (settled orc (AppName o)) before = true ->
  settled orc (AppName o) p = false ->
  exec orc askAppEnvName o =
  (match probe orc (AppName o) p with
   | DescriberFailed cause =>
       Failed (Errorf_w ("creating stack describer for project "
                         +:+ AppName o +:+ ": ") cause)
   | ProbeError cause =>
       Failed (Errorf_w ("check if app " +:+ svcEnv_svcName p
                         +:+ " is deployed in env " +:+ svcEnv_envName p
                         +:+ ": ") cause)
   | _ => Panicked
   end,
   set_appDescriber
     (describerAfter orc (AppName o) (before ++ [p]) (appDescriber o)) o,
   (callsOfListing orc o ++
    flat_map (callsOfProbe orc (AppName o)) (before ++ [p]))).
Proof.
  unfold candidatePairs. intros Hc Hb Hp.
  destruct (serviceCandidates orc o) as [appNames |] eqn:Ea; [| done].
  destruct (environmentCandidates orc o) as [envNames |] eqn:Ee; [| done].
  injection Hc as Hc.
  rewrite (exec_askAppEnvName o appNames envNames) by done.
  rewrite exec_bind, exec_buildCandidates, Hc, probing_stops by done.
  cbn [fst snd]. unfold settled in Hp.
  destruct (probe orc (AppName o) p); done || (by vm_compute in Hp).
Qed.

(** A loop keeps what its body keeps. *)
Lemma forRange_invariant {A S} (I : S -> Prop) (step : A -> S -> M S) :
  (forall x s o s' o' tr,
      I s -> exec orc (step x s) o = (Done s', o', tr) -> I s') ->
  forall xs s o s' o' tr,
    I s -> exec orc (forRange xs step s) o = (Done s', o', tr) -> I s'.
Proof.
  intros Hstep xs. induction xs as [| x xs IH]; intros s o s' o' tr Hs E.
  - cbn [forRange] in E. rewrite exec_ret in E. by injection E as <- _ _.
  - cbn [forRange] in E. rewrite exec_bind in E.
    destruct (exec orc (step x s) o) as [[[s1 | err |] o1] t1] eqn:E1;
      cbn [fst snd] in E; try discriminate.
    destruct (exec orc (forRange xs step s1) o1) as [[r2 o2] t2] eqn:E2.
    unfold after in E; cbn [fst snd] in E. injection E as -> -> _.
    eapply IH; [| exact E2]. eapply Hstep; [exact Hs | exact E1].
Qed.

Lemma checkDeployed_wellKeyed appName envName cs o cs' o' tr :
  wellKeyed cs ->
  exec orc (checkDeployed appName envName cs) o = (Done cs', o', tr) ->
  wellKeyed cs'.
Proof.
  intros Hcs E. rewrite exec_checkDeployed in E.
  destruct (probe orc (AppName o) _); try discriminate.
  - injection E as <- _ _. by apply wellKeyed_retain_one.
  - by injection E as <- _ _.
Qed.

Lemma buildCandidates_wellKeyed appNames envNames o cs o' tr :
  exec orc (buildCandidates appNames envNames) o = (Done cs, o', tr) ->
  wellKeyed cs.
Proof.
  unfold buildCandidates.
  apply (forRange_invariant wellKeyed); [| apply wellKeyed_empty].
  intros appName cs0 o0 cs1 o1 tr1.
  apply (forRange_invariant wellKeyed).
  intros envName cs2 o2 cs3 o3 tr3. apply checkDeployed_wellKeyed.
Qed.

Lemma filteredSet_inv o ds :
  filteredSet orc o = Some ds ->
  exists pairs,
    candidatePairs orc o = Some pairs /\
    forallb (settled orc (AppName o)) pairs = true /\
    ds = filter (fun p => deployed orc (AppName o) p) pairs.
Proof.
  unfold filteredSet. intros E.
  destruct (candidatePairs orc o) as [pairs |]; [| done].
  destruct (forallb _ pairs) eqn:Hs; [| done].
  injection E as <-. eauto.
Qed.

Lemma chooserCalls_app t1 t2 :
  chooserCalls (t1 ++ t2) = chooserCalls t1 ++ chooserCalls t2.
Proof. apply omap_app. Qed.

Lemma notices_app t1 t2 : notices (t1 ++ t2) = notices t1 ++ notices t2.
Proof. apply omap_app. Qed.

Lemma probesIssued_app t1 t2 :
  probesIssued (t1 ++ t2) = probesIssued t1 ++ probesIssued t2.
Proof. apply omap_app. Qed.

(** C1. When the filtered set of deployed pairs has exactly one member,
    service/environment resolution returns that pair (the receiver holds
    its service and environment names), never invokes the Interactive
    Chooser, and emits one informational notice that identifies the pair
    by its display key. *)
Theorem single_deployed_pair_is_auto_selected o p :
  filteredSet orc o = Some [p] ->
  exists o' tr,
    exec orc askAppEnvName o = (Done tt, o', tr) /\
    svcName o' = svcEnv_svcName p /\
    envName o' = svcEnv_envName p /\
    appName o' = appName o /\
    chooserCalls tr = [] /\
    notices tr = ["Only found one deployed app, defaulting to: "
                  +:+ HighlightUserInput (svcEnv_String p) +:+ newline].
Proof.
  intros (pairs & Hc & Hs & Hds)%filteredSet_inv.
  rewrite (exec_askAppEnvName_settled o pairs Hc Hs), <- Hds.
  rewrite exec_selectDeployed. unfold after; cbn [fst snd].
  eexists _, _. split; [reflexivity |]. repeat split.
  - by rewrite !chooserCalls_app, chooserCalls_callsOfListing,
      chooserCalls_callsOfProbe.
  - by rewrite !notices_app, notices_callsOfListing, notices_callsOfProbe.
Qed.

(** C4. When probing retains no deployed pair, resolution fails with the
    "no deployed apps found" error, which names the project, and the
    Interactive Chooser is never invoked. *)
Theorem no_deployed_pair_fails_without_prompt o :
  filteredSet orc o = Some [] ->
  exists o' tr,
    exec orc askAppEnvName o =
      (Failed (errorString ("no deployed apps found in project "
                            +:+ HighlightUserInput (AppName o))), o', tr) /\
    chooserCalls tr = [] /\
    notices tr = [].
Proof.
  intros (pairs & Hc & Hs & Hds)%filteredSet_inv.
  rewrite (exec_askAppEnvName_settled o pairs Hc Hs), <- Hds.
  rewrite exec_selectDeployed. unfold after; cbn [fst snd].
  eexists _, _. split; [reflexivity |]. rewrite app_nil_r. split.
  - by rewrite !chooserCalls_app, chooserCalls_callsOfListing,
      chooserCalls_callsOfProbe.
  - by rewrite !notices_app, notices_callsOfListing, notices_callsOfProbe.
Qed.

(** C2 (amended). When the probes of the candidate pairs before [p] are
    settled and the probe of [p] fails for another reason than "not
    deployed", resolution fails at once: the probes issued are those of the
    pairs up to [p], in order, and none of the pairs after it, and the
    chooser is not invoked. The error wraps the cause. When it is
    [GetServiceArn] that failed, it is the "check if app ... is deployed in
    env ..." error, which names the service and the environment of [p];
    when the describer of [p] could not be created, it is the error of
    [initAppDescriber], which names the project only. *)
Theorem probe_failure_aborts_resolution o (before : list svcEnv) p rest :
  candidatePairs orc o = Some (before ++ p :: rest) ->
  forallb (settled orc (AppName o)) before = true ->
  settled orc (AppName o) p = false ->
  exists failure o' tr,
    exec orc askAppEnvName o = (Failed failure, o', tr) /\
    probesIssued tr =
      map (fun q => (AppName o, svcEnv_envName q, svcEnv_svcName q))
          (before ++ [p]) /\
    chooserCalls tr = [] /\
    ((exists cause,
        probe orc (AppName o) p = ProbeError cause /\
        Unwrap failure = Some cause /\
        Error failure = "check if app " +:+ svcEnv_svcName p
                        +:+ " is deployed in env " +:+ svcEnv_envName p
                        +:+ ": " +:+ Error cause) \/
     (exists cause,
        probe orc (AppName o) p = DescriberFailed cause /\
        Unwrap failure = Some cause /\
        Error failure = "creating stack describer for project "
                        +:+ AppName o +:+ ": " +:+ Error cause)).
Proof.
  intros Hc Hb Hn.
  rewrite (exec_askAppEnvName_stops o before p rest Hc Hb Hn).
  assert (Hcalls :
    forall tr, tr = callsOfListing orc o ++
                    flat_map (callsOfProbe orc (AppName o)) (before ++ [p]) ->
    probesIssued tr =
      map (fun q => (AppName o, svcEnv_envName q, svcEnv_svcName q))
          (before ++ [p]) /\
    chooserCalls tr = []).
  { intros tr ->. split.
    - by rewrite probesIssued_app, probesIssued_callsOfListing,
        probesIssued_callsOfProbe.
    - by rewrite chooserCalls_app, chooserCalls_callsOfListing,
        chooserCalls_callsOfProbe. }
  unfold settled in Hn.
  destruct (probe orc (AppName o) p) as [| | cause | cause] eqn:Hp;
    [by vm_compute in Hn | by vm_compute in Hn | |];
    eexists _, _, _; (split; [reflexivity |]);
    destruct (Hcalls _ eq_refl) as [-> ->]; (split; [done |]);
    (split; [done |]).
  - right. exists cause. repeat split.
    unfold Errorf_w; cbn [Error]. by rewrite !append_assoc.
  - left. exists cause. repeat split.
    unfold Errorf_w; cbn [Error]. by rewrite !append_assoc.
Qed.

(** C3. When the probes of the cross product of the candidates are all
    settled and N > 1 pairs are deployed, the Interactive Chooser is
    invoked exactly once, with exactly N choices: the display keys of the
    deployed pairs in the order of the cross product, service-major and
    environment-minor, each in listing order. *)
Theorem several_deployed_pairs_prompt_once o appNames envNames :
  serviceCandidates orc o = Some appNames ->
  environmentCandidates orc o = Some envNames ->
  forallb (settled orc (AppName o)) (crossProduct appNames envNames) = true ->
  1 < length (filter (fun p => deployed orc (AppName o) p)
                     (crossProduct appNames envNames)) ->
  exists choices,
    chooserCalls (exec orc askAppEnvName o).2 = [choices] /\
    choices = map svcEnv_String
                (filter (fun p => deployed orc (AppName o) p)
                        (crossProduct appNames envNames)) /\
    length choices =
      length (filter (fun p => deployed orc (AppName o) p)
                     (crossProduct appNames envNames)).
Proof.
  intros Ha He Hs Hn.
  assert (Hc : candidatePairs orc o = Some (crossProduct appNames envNames)).
  { unfold candidatePairs. by rewrite Ha, He. }
  rewrite (exec_askAppEnvName_settled o _ Hc Hs), exec_selectDeployed.
  eexists. split; [| split; [reflexivity | by rewrite length_map]].
  destruct (filter _ (crossProduct appNames envNames)) as [| p [| q ds]];
    [simpl in Hn; lia | simpl in Hn; lia |].
  cbv zeta.
  destruct (orc _ (SelectOne _ _ _)) as [choice | err];
    unfold after; cbn [fst snd];
    by rewrite !chooserCalls_app, chooserCalls_callsOfListing,
      chooserCalls_callsOfProbe.
Qed.

(** C5. A candidate pair whose probe reports "not deployed" is dropped and
    probing goes on: after the probes up to that pair, the loops continue
    over the remaining pairs on the Candidate Set that holds the deployed
    pairs met before it, so the pair itself is neither retained nor a
    failure; and when the probes of all the pairs are settled, the loops
    end without an error, having probed every pair and retained exactly
    the deployed ones. *)
Theorem not_deployed_pair_is_dropped o appNames envNames
    (before : list svcEnv) p rest :
  crossProduct appNames envNames = before ++ p :: rest ->
  forallb (settled orc (AppName o)) before = true ->
  probe orc (AppName o) p = NotDeployed ->
  exec orc (buildCandidates appNames envNames) o =
    after (flat_map (callsOfProbe orc (AppName o)) (before ++ [p]))
      (exec orc
         (forRange rest body
            (retain (filter (fun q => deployed orc (AppName o) q) before)
                    (∅, [])))
         (set_appDescriber
            (describerAfter orc (AppName o) (before ++ [p]) (appDescriber o))
            o)) /\
  (forallb (settled orc (AppName o)) rest = true ->
   exists o',
     exec orc (buildCandidates appNames envNames) o =
       (Done (retain (filter (fun q => deployed orc (AppName o) q)
                             (before ++ rest)) (∅, [])),
        o',
        flat_map (callsOfProbe orc (AppName o)) (before ++ p :: rest))).
Proof.
  intros Hx Hb Hp. rewrite exec_buildCandidates, Hx. split.
  - by apply probing_continues.
  - intros Hr. eexists. rewrite probing_settled.
    + f_equal. f_equal. f_equal. rewrite !filter_app, filter_cons.
      rewrite decide_False; [done |].
      unfold deployed. rewrite Hp. by intros ?%bool_decide_unpack.
    + rewrite forallb_app. cbn [forallb]. rewrite Hb, Hr.
      unfold settled. by rewrite Hp.
Qed.

(** C8. In every Candidate Set that the two loops build, every display
    key of the key sequence has exactly one entry in the mapping, that
    entry is a pair with that display key, and no pair is the entry of two
    keys. *)
Theorem candidate_set_invariant o appNames envNames cs o' tr :
  exec orc (buildCandidates appNames envNames) o = (Done cs, o', tr) ->
  (forall k : string, k ∈ cs.2 ->
     exists! p : svcEnv, cs.1 !! k = Some p) /\
  (forall (k : string) (p : svcEnv),
     cs.1 !! k = Some p -> svcEnv_String p = k /\ k ∈ cs.2) /\
  (forall (k1 k2 : string) (p : svcEnv),
     cs.1 !! k1 = Some p -> cs.1 !! k2 = Some p -> k1 = k2).
Proof.
  intros [Hk He]%buildCandidates_wellKeyed. repeat split.
  - intros k [p Hp]%Hk. exists p. split; [done |]. congruence.
  - by apply He.
  - apply Hk. eauto.
  - intros k1 k2 p H1%He H2%He. congruence.
Qed.

(** C9. When more than one pair is deployed and the Interactive Chooser
    returns a string that is none of the choices it was offered,
    resolution does not fail: the lookup in the mapping gives the zero
    pair, and the service name and the environment name of the receiver
    are both set to the empty string. *)
Theorem unknown_choice_resolves_to_empty_names o ds choice :
  filteredSet orc o = Some ds ->
  1 < length ds ->
  orc _ (SelectOne svcLogNamePrompt svcLogNameHelpPrompt
                   (map svcEnv_String ds)) = Ok choice ->
  choice ∉ map svcEnv_String ds ->
  exists o' tr,
    exec orc askAppEnvName o = (Done tt, o', tr) /\
    svcName o' = "" /\
    envName o' = "" /\
    chooserCalls tr = [map svcEnv_String ds].
Proof.
  intros (pairs & Hc & Hs & Hds)%filteredSet_inv Hn Hsel Hnot.
  rewrite (exec_askAppEnvName_settled o pairs Hc Hs), <- Hds.
  rewrite exec_selectDeployed.
  destruct ds as [| p [| q ds]]; [simpl in Hn; lia | simpl in Hn; lia |].
  cbv zeta. rewrite Hsel, (retain_lookup_missing _ _ Hnot).
  unfold after; cbn [fst snd default].
  eexists _, _. split; [reflexivity |]. repeat split.
  by rewrite !chooserCalls_app, chooserCalls_callsOfListing,
    chooserCalls_callsOfProbe.
Qed.

Lemma listingCalls_app t1 t2 :
  listingCalls (t1 ++ t2) = listingCalls t1 ++ listingCalls t2.
Proof. apply filter_app. Qed.

Lemma arnCalls_app t1 t2 : arnCalls (t1 ++ t2) = arnCalls t1 ++ arnCalls t2.
Proof. apply omap_app. Qed.

Lemma arnCalls_callsOfProbe app p :
  arnCalls (callsOfProbe orc app p) =
  match orc _ (NewServiceDescriber app (svcEnv_envName p) (svcEnv_svcName p))
  with
  | Ok d => [d]
  | Err _ => []
  end.
Proof. unfold callsOfProbe. by destruct (orc _ _). Qed.

Lemma exec_askProject_supplied o :
  AppName o <> "" -> exec orc askProject o = (Done tt, o, []).
Proof.
  intros Hp. unfold askProject. rewrite exec_bind, exec_receiver.
  cbn [fst snd]. by rewrite decide_False.
Qed.

(** C6. When the project, the service and the environment are all
    supplied, [Ask] makes no catalog listing call and issues exactly one
    probe, for the supplied triple: the describer is created once, and it
    is asked for the service ARN once (not at all when it could not be
    created). *)
Theorem supplied_identifiers_need_one_probe o :
  appName o <> "" -> svcName o <> "" -> envName o <> "" ->
  listingCalls (exec orc Ask o).2 = [] /\
  probesIssued (exec orc Ask o).2 = [(appName o, envName o, svcName o)] /\
  arnCalls (exec orc Ask o).2 =
    match orc _ (NewServiceDescriber (appName o) (envName o) (svcName o))
    with
    | Ok d => [d]
    | Err _ => []
    end.
Proof.
  intros Hp Hs He. unfold Ask.
  rewrite exec_bind, (exec_askProject_supplied o Hp). cbn [fst snd].
  rewrite after_nil.
  set (p := {| svcEnv_svcName := svcName o; svcEnv_envName := envName o |}).
  assert (Hc : candidatePairs orc o = Some ([] ++ p :: [])).
  { unfold candidatePairs, serviceCandidates, environmentCandidates.
    by rewrite !decide_False. }
  assert (Hl : callsOfListing orc o = []).
  { unfold callsOfListing. by rewrite !decide_False. }
  assert (Hprobe :
    forall extra, listingCalls extra = [] -> probesIssued extra = [] ->
      arnCalls extra = [] ->
      let tr := callsOfListing orc o ++
                flat_map (callsOfProbe orc (AppName o)) [p] ++ extra in
      listingCalls tr = [] /\
      probesIssued tr = [(appName o, envName o, svcName o)] /\
      arnCalls tr =
        match orc _ (NewServiceDescriber (appName o) (envName o) (svcName o))
        with
        | Ok d => [d]
        | Err _ => []
        end).
  { intros extra E1 E2 E3 tr. subst tr. rewrite Hl. cbn [app].
    repeat split.
    - rewrite listingCalls_app, E1, app_nil_r.
      apply (listingCalls_callsOfProbe orc (AppName o) [p]).
    - rewrite probesIssued_app, E2, app_nil_r.
      apply (probesIssued_callsOfProbe orc (AppName o) [p]).
    - rewrite arnCalls_app, E3, app_nil_r. cbn [flat_map].
      by rewrite app_nil_r, arnCalls_callsOfProbe. }
  destruct (settled orc (AppName o) p) eqn:Hset.
  - rewrite (exec_askAppEnvName_settled o [p] Hc) by (cbn; by rewrite Hset).
    rewrite exec_selectDeployed, filter_cons, filter_nil.
    destruct (decide _); unfold after; cbn [fst snd];
      rewrite <- app_assoc; by apply Hprobe.
  - rewrite (exec_askAppEnvName_stops o [] p [] Hc eq_refl Hset).
    cbn [fst snd]. rewrite <- (app_nil_r (flat_map _ _)). by apply Hprobe.
Qed.

(** C7. In project resolution, an error of the Interactive Chooser makes
    [askProject] fail with the "select project" error that wraps it: the
    error of the chooser is what [errors.Unwrap] gives back, and
    [errors.Is] finds a sentinel in the failure exactly when it finds it in
    the error of the chooser. So the failure is the cancellation of the
    chooser when the chooser reported the cancellation, another failure
    otherwise, and the caller can tell the two apart. *)
Theorem chooser_error_is_wrapped o projs err :
  AppName o = "" ->
  orc _ ListApplications = Ok projs ->
  projs <> [] ->
  orc _ (SelectOne appStatusProjectNamePrompt appStatusProjectNameHelpPrompt
                   (map Application_Name projs)) = Err err ->
  exec orc askProject o =
    (Failed (Errorf_w "select project: " err), o,
     [Call ListApplications (Ok projs);
      Call (SelectOne appStatusProjectNamePrompt
                      appStatusProjectNameHelpPrompt
                      (map Application_Name projs)) (Err err)]) /\
  Unwrap (Errorf_w "select project: " err) = Some err /\
  Error (Errorf_w "select project: " err) = "select project: " +:+ Error err /\
  (forall sentinel : string,
     Is (Errorf_w "select project: " err) (errorString sentinel) =
     Is err (errorString sentinel)).
Proof.
  intros Hp Hl Hne Hsel. repeat split.
  unfold askProject, retrieveProjects.
  rewrite exec_bind, exec_receiver. cbn [fst snd].
  rewrite decide_True by done.
  rewrite exec_bind, exec_bind, exec_perform, Hl. cbn [fst snd].
  rewrite exec_ret. cbn [fst snd after app].
  rewrite decide_False by (destruct projs; done).
  rewrite exec_bind, exec_perform, Hsel. cbn [fst snd].
  by rewrite exec_fail.
Qed.

End Resolution.

(** ** The [color] package *)

(** C10. [DisableColorBasedOnEnvVar] leaves both switches as they are for
    every value of [COLOR] whose lower-case form is neither ["true"] nor
    ["false"]; when the variable is not set, it copies [color.NoColor] to
    [core.DisableColor] and leaves [color.NoColor] as it is; and the value
    is matched whatever its case: a value whose lower-case form is
    ["false"] sets both switches, one whose lower-case form is ["true"]
    clears both, and a value acts as its lower-case form does. The case
    is spelled out without [ToLower] too: every spelling of ["false"] in
    upper and lower case letters (["FALSE"], ["False"], ["fAlSe"], ...)
    sets both switches, every spelling of ["true"] clears both, and a
    value that is no such spelling leaves them as they are. *)
Theorem DisableColorBasedOnEnvVar_frame
    (lookupEnv : string -> option string) (st : color.switches) :
  (lookupEnv color.colorEnvVar = None ->
   color.DisableColorBasedOnEnvVar lookupEnv st =
     {| color.core_DisableColor := color.color_NoColor st;
        color.color_NoColor := color.color_NoColor st |}) /\
  (forall value,
     lookupEnv color.colorEnvVar = Some value ->
     color.ToLower value <> "true" -> color.ToLower value <> "false" ->
     color.DisableColorBasedOnEnvVar lookupEnv st = st) /\
  (forall value,
     lookupEnv color.colorEnvVar = Some value ->
     color.ToLower value = "false" ->
     color.DisableColorBasedOnEnvVar lookupEnv st =
       {| color.core_DisableColor := true; color.color_NoColor := true |}) /\
  (forall value,
     lookupEnv color.colorEnvVar = Some value ->
     color.ToLower value = "true" ->
     color.DisableColorBasedOnEnvVar lookupEnv st =
       {| color.core_DisableColor := false; color.color_NoColor := false |}) /\
  (forall value,
     color.DisableColorBasedOnEnvVar (fun _ => Some value) st =
     color.DisableColorBasedOnEnvVar
       (fun _ => Some (color.ToLower value)) st) /\
  (forall value,
     lookupEnv color.colorEnvVar = Some value ->
     value ∈ spellings "false" ->
     color.DisableColorBasedOnEnvVar lookupEnv st =
       {| color.core_DisableColor := true; color.color_NoColor := true |}) /\
  (forall value,
     lookupEnv color.colorEnvVar = Some value ->
     value ∈ spellings "true" ->
     color.DisableColorBasedOnEnvVar lookupEnv st =
       {| color.core_DisableColor := false; color.color_NoColor := false |}) /\
  (forall value,
     lookupEnv color.colorEnvVar = Some value ->
     value ∉ spellings "true" -> value ∉ spellings "false" ->
     color.DisableColorBasedOnEnvVar lookupEnv st = st).
Proof.
  assert (Hf : forall value,
    lookupEnv color.colorEnvVar = Some value ->
    color.ToLower value = "false" ->
    color.DisableColorBasedOnEnvVar lookupEnv st =
      {| color.core_DisableColor := true; color.color_NoColor := true |}).
  { unfold color.DisableColorBasedOnEnvVar. intros value -> Hf.
    by rewrite decide_True. }
  assert (Ht : forall value,
    lookupEnv color.colorEnvVar = Some value ->
    color.ToLower value = "true" ->
    color.DisableColorBasedOnEnvVar lookupEnv st =
      {| color.core_DisableColor := false; color.color_NoColor := false |}).
  { unfold color.DisableColorBasedOnEnvVar. intros value -> Ht.
    rewrite decide_False by (rewrite Ht; done). by rewrite decide_True. }
  assert (Hn : forall value,
    lookupEnv color.colorEnvVar = Some value ->
    color.ToLower value <> "true" -> color.ToLower value <> "false" ->
    color.DisableColorBasedOnEnvVar lookupEnv st = st).
  { unfold color.DisableColorBasedOnEnvVar. intros value -> Ht' Hf'.
    by rewrite !decide_False. }
  split; [| split; [exact Hn | split; [exact Hf | split; [exact Ht |]]]].
  - unfold color.DisableColorBasedOnEnvVar. by intros ->.
  - split; [| split; [| split]].
    + intros value. unfold color.DisableColorBasedOnEnvVar.
      by rewrite ToLower_idempotent.
    + intros value Hv Hin. apply (Hf value Hv). by apply ToLower_spellings.
    + intros value Hv Hin. apply (Ht value Hv). by apply ToLower_spellings.
    + intros value Hv Hnt Hnf.
      apply (Hn value Hv); by rewrite ToLower_spellings.
Qed.

(** ** The statements on the scenarios *)

Section Scenarios.
Import Scenario.
#[local] Existing Instance imports.

(** Services api and web, environments test and prod, (api, test) alone
    deployed: it is selected without a prompt. *)
Lemma single_deployed_pair_is_auto_selected_witness :
  exists o' tr,
    exec (oracleOf (coffee [("api", "test")] (Ok "")))
         askAppEnvName (flags "coffee" "" "") = (Done tt, o', tr) /\
    svcName o' = "api" /\
    envName o' = "test" /\
    appName o' = "coffee" /\
    chooserCalls tr = [] /\
    notices tr = ["Only found one deployed app, defaulting to: api/test"
                  +:+ newline].
Proof.
  refine (@single_deployed_pair_is_auto_selected imports
            (oracleOf (coffee [("api", "test")] (Ok "")))
            (flags "coffee" "" "") (pair "api" "test") _).
  vm_compute. reflexivity.
Defined.

(** The probe of (api, prod) is refused: resolution stops there, after two
    probes, with the error that names api and prod. *)
Lemma probe_failure_aborts_resolution_witness :
  exists failure o' tr,
    exec (oracleOf refused) askAppEnvName (flags "coffee" "" "")
      = (Failed failure, o', tr) /\
    probesIssued tr = [("coffee", "test", "api"); ("coffee", "prod", "api")] /\
    chooserCalls tr = [] /\
    ((exists cause,
        probe (oracleOf refused) "coffee" (pair "api" "prod")
          = ProbeError cause /\
        Unwrap failure = Some cause /\
        Error failure
          = "check if app api is deployed in env prod: " +:+ Error cause) \/
     (exists cause,
        probe (oracleOf refused) "coffee" (pair "api" "prod")
          = DescriberFailed cause /\
        Unwrap failure = Some cause /\
        Error failure
          = "creating stack describer for project coffee: "
            +:+ Error cause)).
Proof.
  refine (@probe_failure_aborts_resolution imports (oracleOf refused)
            (flags "coffee" "" "") [pair "api" "test"] (pair "api" "prod")
            [pair "web" "test"; pair "web" "prod"] _ _ _).
  all: vm_compute; reflexivity.
Defined.

(** No describer can be created: resolution fails on the first pair, (api,
    test), with the error of [initAppDescriber], whose message names the
    project and neither api nor test. *)
Lemma describer_failure_names_the_project_only :
  probe (oracleOf expired) "coffee" (pair "api" "test")
    = DescriberFailed sessionExpired /\
  settled (oracleOf expired) "coffee" (pair "api" "test") = false /\
  exec (oracleOf expired) askAppEnvName (flags "coffee" "api" "test")
    = (Failed (wrapError
                 "creating stack describer for project coffee: session expired"
                 sessionExpired),
       flags "coffee" "api" "test",
       [Call (NewServiceDescriber "coffee" "test" "api")
             (Err sessionExpired)]) /\
  mentions "creating stack describer for project coffee: session expired"
           "api" = false /\
  mentions "creating stack describer for project coffee: session expired"
           "test" = false /\
  mentions "creating stack describer for project coffee: session expired"
           "coffee" = true.
Proof. vm_compute. by repeat split. Qed.

(** The scenario of the specification: (api, test) and (web, prod) are
    deployed, and the chooser is offered exactly these two, in this
    order. *)
Lemma several_deployed_pairs_prompt_once_witness :
  exists choices,
    chooserCalls
      (exec (oracleOf (coffee twoLive (Ok "web/prod")))
            askAppEnvName (flags "coffee" "" "")).2 = [choices] /\
    choices = ["api/test"; "web/prod"] /\
    length choices = 2.
Proof.
  refine (@several_deployed_pairs_prompt_once imports
            (oracleOf (coffee twoLive (Ok "web/prod")))
            (flags "coffee" "" "") ["api"; "web"] ["test"; "prod"] _ _ _ _).
  all: vm_compute; reflexivity || lia.
Defined.

(** Nothing is deployed. *)
Lemma no_deployed_pair_fails_without_prompt_witness :
  exists o' tr,
    exec (oracleOf (coffee [] (Ok ""))) askAppEnvName (flags "coffee" "" "")
      = (Failed (errorString "no deployed apps found in project coffee"),
         o', tr) /\
    chooserCalls tr = [] /\
    notices tr = [].
Proof.
  refine (@no_deployed_pair_fails_without_prompt imports
            (oracleOf (coffee [] (Ok ""))) (flags "coffee" "" "") _).
  vm_compute. reflexivity.
Defined.

(** (api, prod) is not deployed: the loops go on to web and retain the two
    deployed pairs. *)
Lemma not_deployed_pair_is_dropped_witness :
  exists o',
    exec (oracleOf (coffee twoLive (Ok "web/prod")))
         (buildCandidates ["api"; "web"] ["test"; "prod"])
         (flags "coffee" "" "")
    = (Done (retain [pair "api" "test"; pair "web" "prod"] (∅, [])), o',
       flat_map (callsOfProbe (oracleOf (coffee twoLive (Ok "web/prod")))
                              "coffee")
         [pair "api" "test"; pair "api" "prod";
          pair "web" "test"; pair "web" "prod"]).
Proof.
  refine (proj2
            (@not_deployed_pair_is_dropped imports
               (oracleOf (coffee twoLive (Ok "web/prod")))
               (flags "coffee" "" "") ["api"; "web"] ["test"; "prod"]
               [pair "api" "test"] (pair "api" "prod")
               [pair "web" "test"; pair "web" "prod"] _ _ _) _).
  all: vm_compute; reflexivity.
Defined.

(** The three identifiers are supplied: one describer, one probe, no
    listing. *)
Lemma supplied_identifiers_need_one_probe_witness :
  listingCalls
    (exec (oracleOf (coffee twoLive (Ok ""))) Ask
          (flags "coffee" "api" "test")).2 = [] /\
  probesIssued
    (exec (oracleOf (coffee twoLive (Ok ""))) Ask
          (flags "coffee" "api" "test")).2 = [("coffee", "test", "api")] /\
  arnCalls
    (exec (oracleOf (coffee twoLive (Ok ""))) Ask
          (flags "coffee" "api" "test")).2
    = [ {| describer_app := "coffee"; describer_env := "test";
           describer_svc := "api" |} ].
Proof.
  refine (@supplied_identifiers_need_one_probe imports
            (oracleOf (coffee twoLive (Ok ""))) (flags "coffee" "api" "test")
            _ _ _).
  all: discriminate.
Defined.

(** The human interrupts the choice of the project. *)
Lemma chooser_error_is_wrapped_witness :
  exec (oracleOf (coffee twoLive (Err interrupt))) askProject
       (flags "" "" "")
    = (Failed (Errorf_w "select project: " interrupt), flags "" "" "",
       [Call ListApplications
             (Ok [ {| Application_Name := "coffee" |};
                   {| Application_Name := "tea" |} ]);
        Call (SelectOne appStatusProjectNamePrompt
                        appStatusProjectNameHelpPrompt ["coffee"; "tea"])
             (Err interrupt)]) /\
  Unwrap (Errorf_w "select project: " interrupt) = Some interrupt /\
  Error (Errorf_w "select project: " interrupt)
    = "select project: " +:+ Error interrupt /\
  (forall sentinel : string,
     Is (Errorf_w "select project: " interrupt) (errorString sentinel) =
     Is interrupt (errorString sentinel)).
Proof.
  refine (@chooser_error_is_wrapped imports
            (oracleOf (coffee twoLive (Err interrupt))) (flags "" "" "")
            [ {| Application_Name := "coffee" |};
              {| Application_Name := "tea" |} ] interrupt
            eq_refl eq_refl _ eq_refl).
  discriminate.
Defined.

(** The Candidate Set of the scenario of the specification. *)
Lemma candidate_set_invariant_witness :
  (forall k : string,
     k ∈ (retain [pair "api" "test"; pair "web" "prod"] (∅, [])).2 ->
     exists! p : svcEnv,
       (retain [pair "api" "test"; pair "web" "prod"] (∅, [])).1 !! k
         = Some p) /\
  (forall (k : string) (p : svcEnv),
     (retain [pair "api" "test"; pair "web" "prod"] (∅, [])).1 !! k = Some p ->
     svcEnv_String p = k /\
     k ∈ (retain [pair "api" "test"; pair "web" "prod"] (∅, [])).2) /\
  (forall (k1 k2 : string) (p : svcEnv),
     (retain [pair "api" "test"; pair "web" "prod"] (∅, [])).1 !! k1 = Some p ->
     (retain [pair "api" "test"; pair "web" "prod"] (∅, [])).1 !! k2 = Some p ->
     k1 = k2).
Proof.
  refine (@candidate_set_invariant imports
           (oracleOf (coffee twoLive (Ok "web/prod")))
           (flags "coffee" "" "") ["api"; "web"] ["test"; "prod"]
           (retain [pair "api" "test"; pair "web" "prod"] (∅, []))
           (exec (oracleOf (coffee twoLive (Ok "web/prod")))
                 (buildCandidates ["api"; "web"] ["test"; "prod"])
                 (flags "coffee" "" "")).1.2
           (exec (oracleOf (coffee twoLive (Ok "web/prod")))
                 (buildCandidates ["api"; "web"] ["test"; "prod"])
                 (flags "coffee" "" "")).2 _).
  vm_compute. reflexivity.
Defined.

(** The chooser answers with a string that it was not offered. *)
Lemma unknown_choice_resolves_to_empty_names_witness :
  exists o' tr,
    exec (oracleOf (coffee twoLive (Ok "api/prod"))) askAppEnvName
         (flags "coffee" "" "") = (Done tt, o', tr) /\
    svcName o' = "" /\
    envName o' = "" /\
    chooserCalls tr = [["api/test"; "web/prod"]].
Proof.
  refine (@unknown_choice_resolves_to_empty_names imports
            (oracleOf (coffee twoLive (Ok "api/prod")))
            (flags "coffee" "" "")
            [pair "api" "test"; pair "web" "prod"] "api/prod" _ _ eq_refl _).
  - vm_compute. reflexivity.
  - vm_compute. lia.
  - apply (bool_decide_unpack _). vm_compute. exact I.
Defined.

(** The catalog lists no service: resolution fails before any probe. *)
Example no_services_found :
  exec (oracleOf {| projects := Ok []; services := Ok [];
                    environments := Ok []; describer := newDescriber;
                    serviceArn := deployedIn []; selection := fun _ => Ok "" |})
       askAppEnvName (flags "coffee" "" "")
  = (Failed (errorString "no applications found in project coffee"),
     flags "coffee" "" "",
     [Call (ListServices "coffee") (Ok [])]).
Proof. vm_compute. reflexivity. Qed.

(** The human interrupts the choice among the deployed pairs. *)
Example selection_interrupted :
  (exec (oracleOf (coffee twoLive (Err interrupt)))
        askAppEnvName (flags "coffee" "" "")).1.1
  = Failed (wrapError
              "select deployed applications for project coffee: interrupt"
              interrupt).
Proof. vm_compute. reflexivity. Qed.

(** [COLOR=TrUe] turns the colors on, [COLOR=FALSE] off, [COLOR=yes] and
    the empty value change nothing. *)
Example color_values :
  let st := {| color.core_DisableColor := true;
               color.color_NoColor := false |} in
  color.DisableColorBasedOnEnvVar (fun _ => Some "TrUe") st
    = {| color.core_DisableColor := false; color.color_NoColor := false |} /\
  color.DisableColorBasedOnEnvVar (fun _ => Some "FALSE") st
    = {| color.core_DisableColor := true; color.color_NoColor := true |} /\
  color.DisableColorBasedOnEnvVar (fun _ => Some "yes") st = st /\
  color.DisableColorBasedOnEnvVar (fun _ => Some "") st = st /\
  color.DisableColorBasedOnEnvVar (fun _ => None) st
    = {| color.core_DisableColor := false; color.color_NoColor := false |}.
Proof. vm_compute. by repeat split. Qed.

End Scenarios.

(** * Further properties *)

(** ** Validation *)

Lemma untilFailure_all_found ls :
  Forall (fun l => l.2 = None) ls -> untilFailure ls = (None, map fst ls).
Proof.
  induction 1 as [| [c e] ls Hc _ IH]; [done |].
  simpl in Hc. subst e. cbn [untilFailure map fst]. by rewrite IH.
Qed.

Lemma untilFailure_first_missing before c err rest :
  Forall (fun l => l.2 = None) before ->
  untilFailure (before ++ (c, Some err) :: rest)
  = (Some err, map fst before ++ [c]).
Proof.
  induction 1 as [| [c' e] ls Hc _ IH]; [done |].
  simpl in Hc. subst e. cbn [untilFailure map fst app]. by rewrite IH.
Qed.

Section Validation.
Context `{Imports}.
Variable orc : oracle.

Lemma exec_Validate o :
  exec orc Validate o =
  (match (untilFailure (validationLookups orc o)).1 with
   | None => Done tt
   | Some err => Failed err
   end, o, (untilFailure (validationLookups orc o)).2).
Proof.
  unfold Validate, validationLookups.
  unfold exec, bind, receiver, perform, fail, ret.
  cbn [pbind run fst snd].
  destruct (decide (AppName o = "")); cbn [pbind run fst snd app];
    [| destruct (orc _ (GetApplication _)); cbn [pbind run fst snd failureOf untilFailure]; [| done]];
    (destruct (decide (svcName o = "")); cbn [pbind run fst snd app];
     [| destruct (orc _ (GetService _ _)); cbn [pbind run fst snd failureOf untilFailure]; [| done]]);
    (destruct (decide (envName o = "")); cbn [pbind run fst snd app];
     [| destruct (orc _ (GetEnvironment _ _)); cbn [pbind run fst snd failureOf untilFailure]]);
    done.
Qed.

(** X1. When every supplied identifier is found, [Validate] returns [nil],
    leaves the receiver as it is, and has made exactly the lookups of the
    supplied identifiers, in order: no lookup for an empty identifier. *)
Theorem Validate_accepts_known_identifiers o :
  Forall (fun l => l.2 = None) (validationLookups orc o) ->
  exec orc Validate o = (Done tt, o, map fst (validationLookups orc o)).
Proof.
  intros Hf. by rewrite exec_Validate, untilFailure_all_found.
Qed.

(** X2. [Validate] fails with the error of the first lookup that fails, as the
    datastore returned it (it is not wrapped), and makes no lookup after
    it. *)
Theorem Validate_fails_at_first_missing_identifier o before c err rest :
  validationLookups orc o = before ++ (c, Some err) :: rest ->
  Forall (fun l => l.2 = None) before ->
  exec orc Validate o = (Failed err, o, map fst before ++ [c]).
Proof.
  intros Hl Hb. by rewrite exec_Validate, Hl, untilFailure_first_missing.
Qed.

End Validation.

(** ** Project resolution *)

Section ProjectResolution.
Context `{Imports}.
Variable orc : oracle.

Lemma exec_retrieveProjects o :
  exec orc retrieveProjects o =
  (match orc _ ListApplications with
   | Ok projs => Done (map Application_Name projs)
   | Err err => Failed (Errorf_w "list projects: " err)
   end, o, [Call ListApplications (orc _ ListApplications)]).
Proof.
  unfold retrieveProjects, exec, bind, perform; simpl.
  by destruct (orc _ ListApplications).
Qed.

(** What [askProject] does when no project is supplied, by the answer of
    the datastore and of the prompt. *)
Lemma exec_askProject_asked o :
  AppName o = "" ->
  exec orc askProject o =
  match orc _ ListApplications with
  | Err err =>
      (Failed (Errorf_w "list projects: " err), o,
       [Call ListApplications (Err err)])
  | Ok [] =>
      (Failed (errorString ("no project found: run "
                            +:+ HighlightCode "project init" +:+ " please")),
       o, [Call ListApplications (Ok [])])
  | Ok projs =>
      let e := SelectOne appStatusProjectNamePrompt
                         appStatusProjectNameHelpPrompt
                         (map Application_Name projs) in
      (match orc _ e with
       | Err err => Failed (Errorf_w "select project: " err)
       | Ok _ => Done tt
       end,
       match orc _ e with
       | Err _ => o
       | Ok proj => set_appName proj o
       end,
       [Call ListApplications (Ok projs); Call e (orc _ e)])
  end.
Proof.
  intros Hp. unfold askProject.
  rewrite exec_bind, exec_receiver. cbn [fst snd].
  rewrite decide_True by done. rewrite after_nil.
  rewrite exec_bind, exec_retrieveProjects. cbn [fst snd].
  destruct (orc _ ListApplications) as [[| p projs] | err]; [done | | done].
  cbn [map length]. rewrite decide_False by done.
  rewrite exec_bind, exec_perform. cbn [fst snd].
  by destruct (orc _ (SelectOne _ _ _)).
Qed.

(** X3. When no project is supplied and the datastore knows none, [askProject]
    fails with the "no project found" error that points to [project init];
    the prompt is not shown and the receiver is as it was. *)
Theorem askProject_without_projects o :
  AppName o = "" ->
  orc _ ListApplications = Ok [] ->
  exists tr,
    exec orc askProject o =
      (Failed (errorString ("no project found: run "
                            +:+ HighlightCode "project init" +:+ " please")),
       o, tr) /\
    chooserCalls tr = [].
Proof.
  intros Hp Hl. rewrite (exec_askProject_asked o Hp), Hl. eauto.
Qed.

(** X4. When the datastore fails to list the projects, [askProject] fails with
    the "list projects" error that wraps the cause; the prompt is not
    shown and the receiver is as it was. *)
Theorem askProject_listing_failure o cause :
  AppName o = "" ->
  orc _ ListApplications = Err cause ->
  exists failure tr,
    exec orc askProject o = (Failed failure, o, tr) /\
    Unwrap failure = Some cause /\
    Error failure = "list projects: " +:+ Error cause /\
    chooserCalls tr = [].
Proof.
  intros Hp Hl. rewrite (exec_askProject_asked o Hp), Hl.
  eexists _, _. by repeat split.
Qed.

(** X5. When no project is supplied, the prompt is shown once, with the names
    of all the projects of the datastore in its order, and the project it
    returns becomes the project of the receiver; the other variables are
    as they were. *)
Theorem askProject_takes_the_selection o projs proj :
  AppName o = "" ->
  orc _ ListApplications = Ok projs ->
  projs <> [] ->
  orc _ (SelectOne appStatusProjectNamePrompt appStatusProjectNameHelpPrompt
                   (map Application_Name projs)) = Ok proj ->
  exists tr,
    exec orc askProject o = (Done tt, set_appName proj o, tr) /\
    chooserCalls tr = [map Application_Name projs] /\
    listingCalls tr = [Call ListApplications (Ok projs)].
Proof.
  intros Hp Hl Hne Hsel. rewrite (exec_askProject_asked o Hp), Hl.
  destruct projs as [| p projs]; [done |]. cbv zeta. rewrite Hsel.
  eexists. by repeat split.
Qed.

(** X6. [Ask] resolves the service and the environment within the project that
    the prompt returned: after the listing of the projects and the prompt,
    it goes on as [askAppEnvName] does on the receiver that holds the
    selected project. *)
Theorem Ask_resolves_within_the_selected_project o projs proj :
  AppName o = "" ->
  orc _ ListApplications = Ok projs ->
  projs <> [] ->
  orc _ (SelectOne appStatusProjectNamePrompt appStatusProjectNameHelpPrompt
                   (map Application_Name projs)) = Ok proj ->
  exec orc Ask o =
    after [Call ListApplications (Ok projs);
           Call (SelectOne appStatusProjectNamePrompt
                           appStatusProjectNameHelpPrompt
                           (map Application_Name projs)) (Ok proj)]
      (exec orc askAppEnvName (set_appName proj o)).
Proof.
  intros Hp Hl Hne Hsel. unfold Ask.
  rewrite exec_bind, (exec_askProject_asked o Hp), Hl.
  destruct projs as [| p projs]; [done |]. cbv zeta. by rewrite Hsel.
Qed.

End ProjectResolution.

(** ** Resolution without candidates *)

Section ListingFailures.
Context `{Imports}.
Variable orc : oracle.

Lemma exec_askAppEnvName_no_services o :
  serviceCandidates orc o = None ->
  exec orc askAppEnvName o =
  (Failed (serviceListingFailure orc o), o, callsOfServiceListing orc o).
Proof.
  unfold serviceCandidates, serviceListingFailure, callsOfServiceListing,
    askAppEnvName.
  intros Hs. rewrite exec_bind, exec_receiver. cbn [fst snd].
  rewrite after_nil. destruct (decide (svcName o = "")) as [Es | Es]; [| done].
  rewrite exec_bind, exec_bind, exec_retrieveAllAppNames. cbn [fst snd].
  by destruct (orc _ (ListServices (AppName o))) as [[| s svcs] | err].
Qed.

Lemma exec_askAppEnvName_no_environments o appNames :
  serviceCandidates orc o = Some appNames ->
  environmentCandidates orc o = None ->
  exec orc askAppEnvName o =
  (Failed (environmentListingFailure orc o), o, callsOfListing orc o).
Proof.
  unfold serviceCandidates, environmentCandidates, callsOfListing,
    environmentListingFailure, askAppEnvName.
  intros Hs He.
  rewrite exec_bind, exec_receiver. cbn [fst snd]. rewrite after_nil.
  erewrite (exec_bind_done orc _ _ o appNames o
              (if decide (svcName o = "") then
                 [Call (ListServices (AppName o))
                       (orc _ (ListServices (AppName o)))]
               else [])).
  2:{ destruct (decide (svcName o = "")) as [Es | Es].
      - rewrite exec_bind, exec_retrieveAllAppNames. cbn [fst snd].
        destruct (orc _ (ListServices (AppName o))) as [[| s svcs] | err];
          try done.
        injection Hs as <-. cbn [map length].
        rewrite decide_False by done. rewrite exec_ret. reflexivity.
      - injection Hs as <-. rewrite exec_ret. reflexivity. }
  rewrite exec_bind, exec_receiver. cbn [fst snd]. rewrite after_nil.
  destruct (decide (envName o = "")) as [Ee | Ee]; [| done].
  rewrite exec_bind, exec_bind, exec_retrieveAllEnvNames. cbn [fst snd].
  by destruct (orc _ (ListEnvironments (AppName o))) as [[| e envs] | err].
Qed.

End ListingFailures.
(** ** Every run of the resolution *)

Section Runs.
Context `{Imports}.
Variable orc : oracle.

Lemma createdDescribers_app t1 t2 :
  createdDescribers (t1 ++ t2) = createdDescribers t1 ++ createdDescribers t2.
Proof. apply omap_app. Qed.

Lemma createdDescribers_callsOfProbe app pairs :
  createdDescribers (flat_map (callsOfProbe orc app) pairs) =
  arnCalls (flat_map (callsOfProbe orc app) pairs).
Proof.
  unfold createdDescribers, arnCalls.
  induction pairs as [| p pairs IH]; [done |].
  cbn [flat_map]. rewrite !omap_app, IH. f_equal.
  unfold callsOfProbe. by destruct (orc _ _).
Qed.

Lemma createdDescribers_callsOfListing o :
  createdDescribers (callsOfListing orc o) = [].
Proof. unfold callsOfListing. by repeat case_decide. Qed.

Lemma arnCalls_callsOfListing o : arnCalls (callsOfListing orc o) = [].
Proof. unfold callsOfListing. by repeat case_decide. Qed.

Lemma unsettled_split app pairs :
  forallb (settled orc app) pairs = false ->
  exists before p rest,
    pairs = before ++ p :: rest /\
    forallb (settled orc app) before = true /\
    settled orc app p = false.
Proof.
  induction pairs as [| q pairs IH]; [done |]. cbn [forallb].
  destruct (settled orc app q) eqn:Hq; cbn [andb].
  - intros (before & p & rest & -> & Hb & Hp)%IH.
    exists (q :: before), p, rest. cbn [forallb]. by rewrite Hq, Hb.
  - intros _. by exists [], q, pairs.
Qed.

(** The four ways in which [askAppEnvName] runs. *)
Lemma askAppEnvName_cases o
    (P : outcome unit * appStatusOpts * list call -> Prop) :
  (serviceCandidates orc o = None ->
   P (Failed (serviceListingFailure orc o), o, callsOfServiceListing orc o)) ->
  (forall appNames,
     serviceCandidates orc o = Some appNames ->
     environmentCandidates orc o = None ->
     P (Failed (environmentListingFailure orc o), o, callsOfListing orc o)) ->
  (forall before p rest,
     candidatePairs orc o = Some (before ++ p :: rest) ->
     forallb (settled orc (AppName o)) before = true ->
     settled orc (AppName o) p = false ->
     P (match probe orc (AppName o) p with
        | DescriberFailed cause =>
            Failed (Errorf_w ("creating stack describer for project "
                              +:+ AppName o +:+ ": ") cause)
        | ProbeError cause =>
            Failed (Errorf_w ("check if app " +:+ svcEnv_svcName p
                              +:+ " is deployed in env " +:+ svcEnv_envName p
                              +:+ ": ") cause)
        | _ => Panicked
        end,
        set_appDescriber
          (describerAfter orc (AppName o) (before ++ [p]) (appDescriber o)) o,
        callsOfListing orc o ++
        flat_map (callsOfProbe orc (AppName o)) (before ++ [p]))) ->
  (forall pairs,
     candidatePairs orc o = Some pairs ->
     forallb (settled orc (AppName o)) pairs = true ->
     P (after (callsOfListing orc o ++
               flat_map (callsOfProbe orc (AppName o)) pairs)
          (exec orc
             (selectDeployed
                (retain (filter (fun p => deployed orc (AppName o) p) pairs)
                        (∅, [])))
             (set_appDescriber
                (describerAfter orc (AppName o) pairs (appDescriber o)) o)))) ->
  P (exec orc askAppEnvName o).
Proof.
  intros Hnos Hnoe Hstop Hall.
  destruct (serviceCandidates orc o) as [appNames |] eqn:Ea.
  2:{ rewrite exec_askAppEnvName_no_services by done. by apply Hnos. }
  destruct (environmentCandidates orc o) as [envNames |] eqn:Ee.
  2:{ rewrite (exec_askAppEnvName_no_environments orc o appNames) by done.
      by eapply Hnoe. }
  assert (Hc : candidatePairs orc o = Some (crossProduct appNames envNames)).
  { unfold candidatePairs. by rewrite Ea, Ee. }
  destruct (forallb (settled orc (AppName o)) (crossProduct appNames envNames))
    eqn:Hs.
  - rewrite (exec_askAppEnvName_settled orc o _ Hc Hs). by apply Hall.
  - destruct (unsettled_split _ _ Hs) as (before & p & rest & E & Hb & Hp).
    rewrite E in Hc.
    rewrite (exec_askAppEnvName_stops orc o before p rest Hc Hb Hp).
    by apply (Hstop before p rest).
Qed.

End Runs.

Create Rewrite HintDb traces.

#[export] Hint Rewrite
  @chooserCalls_app @notices_app @probesIssued_app @listingCalls_app
  @arnCalls_app @createdDescribers_app
  @chooserCalls_callsOfListing @notices_callsOfListing
  @probesIssued_callsOfListing @createdDescribers_callsOfListing
  @arnCalls_callsOfListing
  @chooserCalls_callsOfProbe @notices_callsOfProbe
  @probesIssued_callsOfProbe @createdDescribers_callsOfProbe
  @app_nil_r @app_nil_l : traces.

Section Unlisted.
Context `{Imports}.
Variable orc : oracle.

(** X8. When no service is supplied and the datastore lists none for the
    project, resolution fails with the "no applications found" error, which
    names the project, after that one listing: the environments are not
    listed, nothing is probed, the human is not asked. *)
Theorem no_services_found_before_probing o :
  svcName o = "" ->
  orc _ (ListServices (AppName o)) = Ok [] ->
  exec orc askAppEnvName o =
    (Failed (errorString ("no applications found in project "
                          +:+ HighlightUserInput (AppName o))), o,
     [Call (ListServices (AppName o)) (Ok [])]).
Proof.
  intros Hs Hl. rewrite exec_askAppEnvName_no_services.
  - unfold serviceListingFailure, callsOfServiceListing.
    by rewrite Hl, decide_True.
  - unfold serviceCandidates. by rewrite Hl, decide_True.
Qed.

(** X9. When the listing of the services fails, resolution fails with the
    "list applications for project" error, which names the project and
    wraps the cause, after that one call. *)
Theorem services_listing_failure_is_wrapped o cause :
  svcName o = "" ->
  orc _ (ListServices (AppName o)) = Err cause ->
  exists failure,
    exec orc askAppEnvName o =
      (Failed failure, o, [Call (ListServices (AppName o)) (Err cause)]) /\
    Unwrap failure = Some cause /\
    Error failure = "list applications for project " +:+ AppName o
                    +:+ ": " +:+ Error cause.
Proof.
  intros Hs Hl. rewrite exec_askAppEnvName_no_services.
  - unfold serviceListingFailure, callsOfServiceListing.
    rewrite Hl, decide_True by done. eexists. repeat split.
    unfold Errorf_w; cbn [Error]. by rewrite !append_assoc.
  - unfold serviceCandidates. by rewrite Hl, decide_True.
Qed.

(** X10. When there are service candidates, no environment is supplied and the
    datastore lists none for the project, resolution fails with the "no
    environments found" error, which names the project; nothing is probed
    and the human is not asked. *)
Theorem no_environments_found_before_probing o appNames :
  serviceCandidates orc o = Some appNames ->
  envName o = "" ->
  orc _ (ListEnvironments (AppName o)) = Ok [] ->
  exists tr,
    exec orc askAppEnvName o =
      (Failed (errorString ("no environments found in project "
                            +:+ HighlightUserInput (AppName o))), o, tr) /\
    probesIssued tr = [] /\
    chooserCalls tr = [] /\
    notices tr = [].
Proof.
  intros Ha He Hl.
  rewrite (exec_askAppEnvName_no_environments orc o appNames Ha).
  - unfold environmentListingFailure. rewrite Hl. eexists.
    split; [reflexivity |]. by autorewrite with traces.
  - unfold environmentCandidates. by rewrite Hl, decide_True.
Qed.

(** X11. When there are service candidates and the listing of the environments
    fails, resolution fails with the "list environments for project"
    error, which names the project and wraps the cause; nothing is probed
    and the human is not asked. *)
Theorem environments_listing_failure_is_wrapped o appNames cause :
  serviceCandidates orc o = Some appNames ->
  envName o = "" ->
  orc _ (ListEnvironments (AppName o)) = Err cause ->
  exists failure tr,
    exec orc askAppEnvName o = (Failed failure, o, tr) /\
    Unwrap failure = Some cause /\
    Error failure = "list environments for project " +:+ AppName o
                    +:+ ": " +:+ Error cause /\
    probesIssued tr = [] /\
    chooserCalls tr = [] /\
    notices tr = [].
Proof.
  intros Ha He Hl.
  rewrite (exec_askAppEnvName_no_environments orc o appNames Ha).
  - unfold environmentListingFailure. rewrite Hl. eexists _, _.
    split; [reflexivity |]. split; [done |]. split.
    + unfold Errorf_w; cbn [Error]. by rewrite !append_assoc.
    + by autorewrite with traces.
  - unfold environmentCandidates. by rewrite Hl, decide_True.
Qed.

(** Whatever the collaborators answer, [askProject] neither probes nor
    emits a notice, and lists neither services nor environments. *)
Lemma askProject_projections o :
  probesIssued (exec orc askProject o).2 = [] /\
  arnCalls (exec orc askProject o).2 = [] /\
  notices (exec orc askProject o).2 = [] /\
  Forall (fun c => exists r, c = Call ListApplications r)
         (listingCalls (exec orc askProject o).2).
Proof.
  destruct (decide (AppName o = "")) as [Hp | Hp].
  - rewrite (exec_askProject_asked orc o Hp).
    destruct (orc _ ListApplications) as [[| p projs] | err]; cbn [snd];
      repeat split; try done; repeat constructor; eauto.
  - rewrite (exec_askProject_supplied orc o Hp). by repeat split.
Qed.

(** X7. When [askProject] fails, [Ask] fails with the same error on the same
    receiver and goes no further: it has listed neither services nor
    environments, probed nothing, and emitted no notice. *)
Theorem Ask_stops_when_the_project_is_not_resolved o failure o' tr :
  exec orc askProject o = (Failed failure, o', tr) ->
  exec orc Ask o = (Failed failure, o', tr) /\
  probesIssued tr = [] /\
  arnCalls tr = [] /\
  notices tr = [] /\
  Forall (fun c => exists r, c = Call ListApplications r) (listingCalls tr).
Proof.
  intros E. split.
  - unfold Ask. by rewrite exec_bind, E.
  - pose proof (askProject_projections o) as Hp. by rewrite E in Hp.
Qed.

End Unlisted.

(** ** What the resolution always does *)

Section Always.
Context `{Imports}.
Variable orc : oracle.

Lemma callsOfServiceListing_projections o :
  chooserCalls (callsOfServiceListing orc o) = [] /\
  notices (callsOfServiceListing orc o) = [] /\
  probesIssued (callsOfServiceListing orc o) = [] /\
  arnCalls (callsOfServiceListing orc o) = [] /\
  createdDescribers (callsOfServiceListing orc o) = [].
Proof. unfold callsOfServiceListing. by case_decide. Qed.

(** What the end of the resolution adds to the trace. *)
Lemma selectDeployed_projections ds o :
  probesIssued (exec orc (selectDeployed (retain ds (∅, []))) o).2 = [] /\
  arnCalls (exec orc (selectDeployed (retain ds (∅, []))) o).2 = [] /\
  createdDescribers (exec orc (selectDeployed (retain ds (∅, []))) o).2 = [] /\
  length (chooserCalls (exec orc (selectDeployed (retain ds (∅, []))) o).2)
  + length (notices (exec orc (selectDeployed (retain ds (∅, []))) o).2)
  = match (exec orc (selectDeployed (retain ds (∅, []))) o).1.1, ds with
    | Done _, _ => 1
    | _, _ :: _ :: _ => 1
    | _, _ => 0
    end.
Proof.
  rewrite exec_selectDeployed.
  destruct ds as [| p [| q ds]]; [done | done |].
  cbv zeta. by destruct (orc _ (SelectOne _ _ _)).
Qed.

(** X12. Whatever the collaborators answer, [askAppEnvName] asks for the
    service ARN exactly the describers that the creations returned, in the
    order of their creation: every probe goes to the describer created for
    it. *)
Theorem every_probe_asks_the_describer_created_for_it o :
  arnCalls (exec orc askAppEnvName o).2 =
  createdDescribers (exec orc askAppEnvName o).2.
Proof.
  apply (askAppEnvName_cases orc o
           (fun r => arnCalls r.2 = createdDescribers r.2)).
  - intros _. cbn [snd].
    by destruct (callsOfServiceListing_projections o) as (_ & _ & _ & -> & ->).
  - intros appNames _ _. cbn [snd]. by autorewrite with traces.
  - intros before p rest _ _ _. cbn [snd]. by autorewrite with traces.
  - intros pairs _ _. unfold after; cbn [snd].
    destruct (selectDeployed_projections
                (filter (fun p => deployed orc (AppName o) p) pairs)
                (set_appDescriber
                   (describerAfter orc (AppName o) pairs (appDescriber o)) o))
      as (_ & Ha & Hc & _).
    autorewrite with traces. by rewrite Ha, Hc.
Qed.

(** X13. Whatever the collaborators answer, the probes that [askAppEnvName]
    issues are the triples of the first candidate pairs, in display-key
    order, each once: none when there are no candidates, and never more
    than the cross product has pairs. *)
Theorem probes_follow_the_cross_product o :
  exists probed : list svcEnv,
    probed `prefix_of` default [] (candidatePairs orc o) /\
    probesIssued (exec orc askAppEnvName o).2 = map (tripleOf (AppName o)) probed /\
    length (probesIssued (exec orc askAppEnvName o).2)
    <= length (default [] (candidatePairs orc o)).
Proof.
  apply (askAppEnvName_cases orc o
           (fun r => exists probed : list svcEnv,
              probed `prefix_of` default [] (candidatePairs orc o) /\
              probesIssued r.2 = map (tripleOf (AppName o)) probed /\
              length (probesIssued r.2)
              <= length (default [] (candidatePairs orc o)))).
  - intros _. exists []. cbn [snd].
    destruct (callsOfServiceListing_projections o) as (_ & _ & -> & _).
    split; [apply prefix_nil |]. split; [done | simpl; lia].
  - intros appNames _ _. exists []. cbn [snd]. autorewrite with traces.
    split; [apply prefix_nil |]. split; [done | simpl; lia].
  - intros before p rest -> _ _. exists (before ++ [p]). cbn [snd default from_option id].
    autorewrite with traces. split; [| split; [done |]].
    + exists rest. by rewrite <- app_assoc.
    + rewrite length_map, !length_app. simpl. lia.
  - intros pairs -> _. exists pairs. unfold after; cbn [snd default from_option id].
    destruct (selectDeployed_projections
                (filter (fun p => deployed orc (AppName o) p) pairs)
                (set_appDescriber
                   (describerAfter orc (AppName o) pairs (appDescriber o)) o))
      as (Hp & _).
    autorewrite with traces. rewrite Hp. autorewrite with traces.
    split; [done |]. split; [done |]. by rewrite length_map.
Qed.

(** X14. Whatever the collaborators answer, [askAppEnvName] does not panic: the
    describer is never [nil] when it is asked for the service ARN. *)
Theorem askAppEnvName_never_panics o :
  (exec orc askAppEnvName o).1.1 <> Panicked.
Proof.
  apply (askAppEnvName_cases orc o (fun r => r.1.1 <> Panicked)).
  - done.
  - done.
  - intros before p rest _ _ Hp. cbn [fst]. unfold settled in Hp.
    destruct (probe orc (AppName o) p); done || (by vm_compute in Hp).
  - intros pairs _ _. unfold after; cbn [fst]. rewrite exec_selectDeployed.
    destruct (filter _ pairs) as [| p [| q ds]]; [done | done |].
    cbv zeta. by destruct (orc _ (SelectOne _ _ _)).
Qed.

(** X15. Whatever the collaborators answer, [askAppEnvName] leaves the project
    and the output format of the receiver as they were; and when it does
    not succeed it leaves the service and the environment as they were
    too: the two are assigned only by a successful resolution. *)
Theorem askAppEnvName_assigns_only_on_success o :
  appName (exec orc askAppEnvName o).1.2 = appName o /\
  shouldOutputJSON (exec orc askAppEnvName o).1.2 = shouldOutputJSON o /\
  ((exec orc askAppEnvName o).1.1 <> Done tt ->
   svcName (exec orc askAppEnvName o).1.2 = svcName o /\
   envName (exec orc askAppEnvName o).1.2 = envName o).
Proof.
  apply (askAppEnvName_cases orc o
           (fun r => appName r.1.2 = appName o /\
                     shouldOutputJSON r.1.2 = shouldOutputJSON o /\
                     (r.1.1 <> Done tt ->
                      svcName r.1.2 = svcName o /\ envName r.1.2 = envName o))).
  - done.
  - done.
  - done.
  - intros pairs _ _. unfold after; cbn [fst snd]. rewrite exec_selectDeployed.
    destruct (filter _ pairs) as [| p [| q ds]]; [done | done |].
    cbv zeta. by destruct (orc _ (SelectOne _ _ _)).
Qed.

(** X16. Whatever the collaborators answer, [askAppEnvName] speaks to the human
    at most once, by a prompt or by a notice and never by both; when it
    succeeds it has done so exactly once. *)
Theorem one_prompt_or_one_notice o :
  length (chooserCalls (exec orc askAppEnvName o).2)
  + length (notices (exec orc askAppEnvName o).2) <= 1 /\
  ((exec orc askAppEnvName o).1.1 = Done tt ->
   length (chooserCalls (exec orc askAppEnvName o).2)
   + length (notices (exec orc askAppEnvName o).2) = 1).
Proof.
  apply (askAppEnvName_cases orc o
           (fun r => length (chooserCalls r.2) + length (notices r.2) <= 1 /\
                     (r.1.1 = Done tt ->
                      length (chooserCalls r.2) + length (notices r.2) = 1))).
  - intros _. cbn [fst snd].
    destruct (callsOfServiceListing_projections o) as (-> & -> & _).
    split; [simpl; lia | done].
  - intros appNames _ _. cbn [fst snd]. autorewrite with traces.
    split; [simpl; lia | done].
  - intros before p rest _ _ Hp. cbn [fst snd]. autorewrite with traces.
    split; [simpl; lia |]. unfold settled in Hp.
    destruct (probe orc (AppName o) p); done || (by vm_compute in Hp).
  - intros pairs _ _. unfold after; cbn [fst snd].
    destruct (selectDeployed_projections
                (filter (fun p => deployed orc (AppName o) p) pairs)
                (set_appDescriber
                   (describerAfter orc (AppName o) pairs (appDescriber o)) o))
      as (_ & _ & _ & Hn).
    autorewrite with traces. rewrite Hn.
    destruct (exec orc _ _) as [[[[] | err |] o'] tr]; cbn [fst];
      destruct (filter _ pairs) as [| p [| q ds]]; split; done || lia.
Qed.

End Always.

(** ** The selection *)

Section Selection.
Context `{Imports}.
Variable orc : oracle.

Lemma elem_of_map_2 {A B} (f : A -> B) (l : list A) x :
  x ∈ l -> f x ∈ map f l.
Proof. rewrite !list_elem_of_In. apply in_map. Qed.

Lemma retain_lookup_Some ds cs (k : string) p :
  (retain ds cs).1 !! k = Some p ->
  (p ∈ ds /\ svcEnv_String p = k) \/ cs.1 !! k = Some p.
Proof.
  revert cs. induction ds as [| q ds IH]; intros cs.
  - rewrite retain_nil. auto.
  - rewrite retain_cons. intros [[Hin Hk] | Hl]%IH.
    + left. split; [apply elem_of_cons; by right | done].
    + cbn [retain foldl fst] in Hl.
      destruct (decide (svcEnv_String q = k)) as [<- | Hne].
      * rewrite lookup_insert_eq in Hl. injection Hl as ->.
        left. split; [apply elem_of_cons; by left | done].
      * rewrite lookup_insert_ne in Hl by done. by right.
Qed.

Lemma keys_distinct_inj (ds : list svcEnv) p q :
  NoDup (map svcEnv_String ds) ->
  p ∈ ds -> q ∈ ds -> svcEnv_String p = svcEnv_String q -> p = q.
Proof.
  induction ds as [| d ds IH]; [by intros _ ?%elem_of_nil |].
  cbn [map]. intros [Hd Hnd]%NoDup_cons Hp Hq E.
  apply elem_of_cons in Hp as [-> | Hp]; apply elem_of_cons in Hq as [-> | Hq].
  - done.
  - exfalso. apply Hd. rewrite E. by apply elem_of_map_2.
  - exfalso. apply Hd. rewrite <- E. by apply elem_of_map_2.
  - by apply IH.
Qed.

(** An offered display key is the key of a retained pair. *)
Lemma retain_lookup_offered ds (k : string) :
  k ∈ map svcEnv_String ds ->
  exists p, (retain ds (∅, [])).1 !! k = Some p /\ p ∈ ds /\
            svcEnv_String p = k.
Proof.
  intros Hin.
  destruct (wellKeyed_retain ds _ wellKeyed_empty) as [Hk _].
  rewrite retain_names in Hk. apply Hk in Hin as [p Hp]. exists p.
  split; [done |].
  apply retain_lookup_Some in Hp as [[Hpin Hpk] | Hp]; [done |].
  cbn [fst] in Hp. by rewrite lookup_empty in Hp.
Qed.

(** X17. When more than one pair is deployed and the chooser returns one of the
    display keys it was offered, resolution succeeds with a deployed pair
    that has this display key: its service and environment become those of
    the receiver. *)
Theorem offered_choice_resolves_to_a_deployed_pair o ds choice :
  filteredSet orc o = Some ds ->
  1 < length ds ->
  orc _ (SelectOne svcLogNamePrompt svcLogNameHelpPrompt
                   (map svcEnv_String ds)) = Ok choice ->
  choice ∈ map svcEnv_String ds ->
  exists p o' tr,
    exec orc askAppEnvName o = (Done tt, o', tr) /\
    p ∈ ds /\
    svcEnv_String p = choice /\
    svcName o' = svcEnv_svcName p /\
    envName o' = svcEnv_envName p.
Proof.
  intros (pairs & Hc & Hs & Hds)%filteredSet_inv Hn Hsel Hin.
  rewrite (exec_askAppEnvName_settled orc o pairs Hc Hs), <- Hds.
  rewrite exec_selectDeployed.
  destruct (retain_lookup_offered ds choice Hin) as (p & Hp & Hpin & Hpk).
  destruct ds as [| d1 [| d2 ds]]; [simpl in Hn; lia | simpl in Hn; lia |].
  cbv zeta. rewrite Hsel, Hp. cbn [default from_option id].
  exists p. unfold after; cbn [fst snd]. eexists _, _. by repeat split.
Qed.

(** X18. When the display keys of the deployed pairs are distinct and the
    chooser returns the display key of one of them, resolution succeeds
    with exactly that pair. *)
Theorem choice_resolves_to_its_pair o ds p :
  filteredSet orc o = Some ds ->
  1 < length ds ->
  NoDup (map svcEnv_String ds) ->
  p ∈ ds ->
  orc _ (SelectOne svcLogNamePrompt svcLogNameHelpPrompt
                   (map svcEnv_String ds)) = Ok (svcEnv_String p) ->
  exists o' tr,
    exec orc askAppEnvName o = (Done tt, o', tr) /\
    svcName o' = svcEnv_svcName p /\
    envName o' = svcEnv_envName p.
Proof.
  intros (pairs & Hc & Hs & Hds)%filteredSet_inv Hn Hnd Hin Hsel.
  rewrite (exec_askAppEnvName_settled orc o pairs Hc Hs), <- Hds.
  rewrite exec_selectDeployed.
  destruct (retain_lookup_offered ds (svcEnv_String p))
    as (q & Hq & Hqin & Hqk); [by apply elem_of_map_2 |].
  assert (q = p) as -> by (by apply (keys_distinct_inj ds)).
  destruct ds as [| d1 [| d2 ds]]; [simpl in Hn; lia | simpl in Hn; lia |].
  cbv zeta. rewrite Hsel, Hq. cbn [default from_option id].
  unfold after; cbn [fst snd]. eexists _, _. by repeat split.
Qed.

End Selection.

(** ** The [color] package, further *)

(** X19. [DisableColorBasedOnEnvVar] reads the value whatever its case: the 32
    spellings of "false" in upper and lower case set both switches, the 16
    spellings of "true" clear both, and every other value leaves them as
    they are. *)
Theorem COLOR_is_read_in_any_case value (st : color.switches) :
  color.DisableColorBasedOnEnvVar (fun _ => Some value) st =
    (if bool_decide (value ∈ spellings "false") then
       {| color.core_DisableColor := true; color.color_NoColor := true |}
     else if bool_decide (value ∈ spellings "true") then
       {| color.core_DisableColor := false; color.color_NoColor := false |}
     else st) /\
  length (spellings "false") = 32 /\
  length (spellings "true") = 16.
Proof.
  split; [| done]. unfold color.DisableColorBasedOnEnvVar.
  destruct (decide (color.ToLower value = "false")) as [Hf | Hf].
  - by rewrite bool_decide_true by (by apply ToLower_spellings).
  - rewrite bool_decide_false by (by rewrite <- ToLower_spellings).
    destruct (decide (color.ToLower value = "true")) as [Ht | Ht].
    + by rewrite bool_decide_true by (by apply ToLower_spellings).
    + by rewrite bool_decide_false by (by rewrite <- ToLower_spellings).
Qed.

(** X20. Calling [DisableColorBasedOnEnvVar] again in the same environment
    changes nothing more. *)
Theorem DisableColorBasedOnEnvVar_idempotent lookupEnv (st : color.switches) :
  color.DisableColorBasedOnEnvVar lookupEnv
    (color.DisableColorBasedOnEnvVar lookupEnv st) =
  color.DisableColorBasedOnEnvVar lookupEnv st.
Proof.
  unfold color.DisableColorBasedOnEnvVar.
  destruct (lookupEnv color.colorEnvVar) as [value |]; [| done].
  by repeat case_decide.
Qed.

(** X21. After [DisableColorBasedOnEnvVar] the two switches agree, unless
    [COLOR] is set to a value that is neither "true" nor "false": then
    they are as they were, agreeing or not. *)
Theorem switches_agree_unless_COLOR_is_unknown lookupEnv (st : color.switches) :
  (forall value, lookupEnv color.colorEnvVar = Some value ->
     color.ToLower value = "true" \/ color.ToLower value = "false") ->
  color.core_DisableColor (color.DisableColorBasedOnEnvVar lookupEnv st) =
  color.color_NoColor (color.DisableColorBasedOnEnvVar lookupEnv st).
Proof.
  intros Hk. unfold color.DisableColorBasedOnEnvVar.
  destruct (lookupEnv color.colorEnvVar) as [value |]; [| done].
  destruct (Hk value eq_refl) as [Ht | Hf]; repeat case_decide; done.
Qed.

(** ** [Execute] *)

Section Execute.
Import status.
Variable ans : answers.

(** [Execute], by the answers of the collaborators. *)
Lemma play_Execute o :
  play ans (Execute o) =
  let e := NewAppStatus (AppName (vars o)) (envName (vars o))
                        (svcName (vars o)) in
  match ans _ e with
  | Err err =>
      (Failed (Errorf_w ("creating status describer for application "
                         +:+ svcName (vars o) +:+ " in project "
                         +:+ AppName (vars o) +:+ ": ") err), o,
       [Made e (Err err)])
  | Ok d =>
      let o' := {| vars := vars o; installed := Some d |} in
      match ans _ (Describe d) with
      | Err err =>
          (Failed (Errorf_w ("describe status of application "
                             +:+ svcName (vars o) +:+ ": ") err), o',
           [Made e (Ok d); Made (Describe d) (Err err)])
      | Ok appStatus =>
          if shouldOutputJSON (vars o) then
            match JSONString appStatus with
            | Err err =>
                (Failed err, o',
                 [Made e (Ok d); Made (Describe d) (Ok appStatus)])
            | Ok data =>
                (Done tt, o',
                 [Made e (Ok d); Made (Describe d) (Ok appStatus);
                  Made (Fprintf data) (ans _ (Fprintf data))])
            end
          else
            (Done tt, o',
             [Made e (Ok d); Made (Describe d) (Ok appStatus);
              Made (Fprintf (HumanString appStatus))
                   (ans _ (Fprintf (HumanString appStatus)))])
      end
  end.
Proof.
  unfold Execute, andThen, initStatusDescriber, describeAndPrint.
  cbn [play vars installed]. cbv zeta.
  destruct (ans _ (NewAppStatus _ _ _)) as [d | err];
    cbn [play vars installed]; [| done].
  destruct (ans _ (Describe d)) as [appStatus | err]; cbn [play]; [| done].
  destruct (shouldOutputJSON (vars o)); cbn [play]; [| done].
  by destruct (JSONString appStatus).
Qed.

(** X22. Whatever the collaborators answer, [Execute] writes exactly once when
    it succeeds and nothing at all when it fails; it asks one status
    describer at most, the one created for the project, the environment
    and the service of the receiver; and it does not panic. *)
Theorem Execute_writes_only_on_success o :
  length (written (play ans (Execute o)).2)
    = match (play ans (Execute o)).1.1 with Done _ => 1 | _ => 0 end /\
  created (play ans (Execute o)).2
    = [(AppName (vars o), envName (vars o), svcName (vars o))] /\
  described (play ans (Execute o)).2
    = match ans _ (NewAppStatus (AppName (vars o)) (envName (vars o))
                                (svcName (vars o))) with
      | Ok d => [d]
      | Err _ => []
      end /\
  (play ans (Execute o)).1.1 <> Panicked.
Proof.
  rewrite play_Execute. cbv zeta.
  destruct (ans _ (NewAppStatus _ _ _)) as [d | err]; [| done].
  destruct (ans _ (Describe d)) as [appStatus | err]; [| done].
  destruct (shouldOutputJSON (vars o)); [| done].
  by destruct (JSONString appStatus).
Qed.

(** X23. When the status is described, [Execute] calls [fmt.Fprintf] once,
    and the format string it passes is the JSON rendering if the JSON
    output is asked for and the human rendering otherwise: the rendering
    is the format of the call, not an operand of it, and the other
    rendering is not printed. *)
Theorem Execute_prints_the_chosen_rendering o d appStatus :
  ans _ (NewAppStatus (AppName (vars o)) (envName (vars o))
                      (svcName (vars o))) = Ok d ->
  ans _ (Describe d) = Ok appStatus ->
  (shouldOutputJSON (vars o) = true ->
   forall data, JSONString appStatus = Ok data ->
     (play ans (Execute o)).1.1 = Done tt /\
     formats (play ans (Execute o)).2 = [data]) /\
  (shouldOutputJSON (vars o) = false ->
   (play ans (Execute o)).1.1 = Done tt /\
   formats (play ans (Execute o)).2 = [HumanString appStatus]).
Proof.
  intros Hn Hd. rewrite play_Execute. cbv zeta. rewrite Hn, Hd.
  split; intros ->; [intros data -> |]; done.
Qed.

(** X24. The failures of [Execute]: the failure to create the status describer
    is wrapped in an error that names the service and the project, and the
    status is not asked for; the failure of [Describe] is wrapped in an
    error that names the service; the failure of the JSON rendering is
    returned as it is. *)
Theorem Execute_failures o :
  (forall cause,
     ans _ (NewAppStatus (AppName (vars o)) (envName (vars o))
                         (svcName (vars o))) = Err cause ->
     (play ans (Execute o)).1.1
       = Failed (Errorf_w ("creating status describer for application "
                           +:+ svcName (vars o) +:+ " in project "
                           +:+ AppName (vars o) +:+ ": ") cause) /\
     described (play ans (Execute o)).2 = []) /\
  (forall d cause,
     ans _ (NewAppStatus (AppName (vars o)) (envName (vars o))
                         (svcName (vars o))) = Ok d ->
     ans _ (Describe d) = Err cause ->
     (play ans (Execute o)).1.1
       = Failed (Errorf_w ("describe status of application "
                           +:+ svcName (vars o) +:+ ": ") cause)) /\
  (forall d appStatus cause,
     ans _ (NewAppStatus (AppName (vars o)) (envName (vars o))
                         (svcName (vars o))) = Ok d ->
     ans _ (Describe d) = Ok appStatus ->
     shouldOutputJSON (vars o) = true ->
     JSONString appStatus = Err cause ->
     (play ans (Execute o)).1.1 = Failed cause).
Proof.
  rewrite play_Execute. cbv zeta. split; [| split].
  - by intros cause ->.
  - by intros d cause -> ->.
  - by intros d appStatus cause -> -> -> ->.
Qed.

End Execute.

(** ** The further statements on the scenarios *)

Section FurtherScenarios.
Import Scenario Cases.
#[local] Existing Instance imports.

(** The three identifiers are supplied and known: three lookups. *)
Lemma Validate_accepts_known_identifiers_witness :
  exec (oracleOf shop) Validate (flags "coffee" "api" "test")
  = (Done tt, flags "coffee" "api" "test",
     [Call (GetApplication "coffee") (Ok {| Application_Name := "coffee" |});
      Call (GetService "coffee" "api") (Ok {| Service_Name := "api" |});
      Call (GetEnvironment "coffee" "test")
           (Ok {| Environment_Name := "test" |})]).
Proof.
  refine (@Validate_accepts_known_identifiers (oracleOf shop)
            (flags "coffee" "api" "test") _).
  vm_compute. by repeat constructor.
Defined.

(** The service is not known: the environment is not looked up. *)
Lemma Validate_fails_at_first_missing_identifier_witness :
  exec (withoutService "cart" shop) Validate (flags "coffee" "cart" "test")
  = (Failed (notFound "cart"), flags "coffee" "cart" "test",
     [Call (GetApplication "coffee") (Ok {| Application_Name := "coffee" |});
      Call (GetService "coffee" "cart") (Err (notFound "cart"))]).
Proof.
  refine (@Validate_fails_at_first_missing_identifier
            (withoutService "cart" shop) (flags "coffee" "cart" "test")
            [(Call (GetApplication "coffee")
                   (Ok {| Application_Name := "coffee" |}), None)]
            (Call (GetService "coffee" "cart") (Err (notFound "cart")))
            (notFound "cart")
            [(Call (GetEnvironment "coffee" "test")
                   (Ok {| Environment_Name := "test" |}), None)] _ _).
  - vm_compute. reflexivity.
  - by repeat constructor.
Defined.

(** The datastore knows no project. *)
Lemma askProject_without_projects_witness :
  exists tr,
    exec (oracleOf (withProjects (Ok []) shop)) askProject (flags "" "" "")
      = (Failed (errorString "no project found: run project init please"),
         flags "" "" "", tr) /\
    chooserCalls tr = [].
Proof.
  refine (@askProject_without_projects imports
            (oracleOf (withProjects (Ok []) shop)) (flags "" "" "") _ _);
    reflexivity.
Defined.

(** The datastore refuses to list the projects. *)
Lemma askProject_listing_failure_witness :
  exists failure tr,
    exec (oracleOf (withProjects (Err accessDenied) shop)) askProject
         (flags "" "" "") = (Failed failure, flags "" "" "", tr) /\
    Unwrap failure = Some accessDenied /\
    Error failure = "list projects: AccessDenied" /\
    chooserCalls tr = [].
Proof.
  refine (@askProject_listing_failure imports
            (oracleOf (withProjects (Err accessDenied) shop))
            (flags "" "" "") accessDenied _ _);
    reflexivity.
Defined.

(** The human picks "tea" among coffee and tea. *)
Lemma askProject_takes_the_selection_witness :
  exists tr,
    exec (oracleOf (coffee twoLive (Ok "tea"))) askProject (flags "" "" "")
      = (Done tt, flags "tea" "" "", tr) /\
    chooserCalls tr = [["coffee"; "tea"]] /\
    listingCalls tr
      = [Call ListApplications
              (Ok [ {| Application_Name := "coffee" |};
                    {| Application_Name := "tea" |} ])].
Proof.
  refine (@askProject_takes_the_selection imports
            (oracleOf (coffee twoLive (Ok "tea"))) (flags "" "" "")
            [ {| Application_Name := "coffee" |};
              {| Application_Name := "tea" |} ] "tea" _ _ _ _);
    reflexivity || discriminate.
Defined.

(** The services are then listed for "tea". *)
Lemma Ask_resolves_within_the_selected_project_witness :
  exec (oracleOf (coffee twoLive (Ok "tea"))) Ask (flags "" "" "")
  = after
      [Call ListApplications
            (Ok [ {| Application_Name := "coffee" |};
                  {| Application_Name := "tea" |} ]);
       Call (SelectOne appStatusProjectNamePrompt
                       appStatusProjectNameHelpPrompt ["coffee"; "tea"])
            (Ok "tea")]
      (exec (oracleOf (coffee twoLive (Ok "tea"))) askAppEnvName
            (flags "tea" "" "")).
Proof.
  refine (@Ask_resolves_within_the_selected_project imports
            (oracleOf (coffee twoLive (Ok "tea"))) (flags "" "" "")
            [ {| Application_Name := "coffee" |};
              {| Application_Name := "tea" |} ] "tea" _ _ _ _);
    reflexivity || discriminate.
Defined.

(** The human interrupts the choice of the project: nothing is probed. *)
Lemma Ask_stops_when_the_project_is_not_resolved_witness :
  exec (oracleOf (coffee twoLive (Err interrupt))) Ask (flags "" "" "")
    = (Failed (Errorf_w "select project: " interrupt), flags "" "" "",
       (exec (oracleOf (coffee twoLive (Err interrupt))) askProject
             (flags "" "" "")).2) /\
  probesIssued
    (exec (oracleOf (coffee twoLive (Err interrupt))) askProject
          (flags "" "" "")).2 = [] /\
  arnCalls
    (exec (oracleOf (coffee twoLive (Err interrupt))) askProject
          (flags "" "" "")).2 = [] /\
  notices
    (exec (oracleOf (coffee twoLive (Err interrupt))) askProject
          (flags "" "" "")).2 = [] /\
  Forall (fun c => exists r, c = Call ListApplications r)
    (listingCalls
       (exec (oracleOf (coffee twoLive (Err interrupt))) askProject
             (flags "" "" "")).2).
Proof.
  refine (@Ask_stops_when_the_project_is_not_resolved imports
            (oracleOf (coffee twoLive (Err interrupt))) (flags "" "" "")
            (Errorf_w "select project: " interrupt) (flags "" "" "") _ _).
  reflexivity.
Defined.

(** The project has no service. *)
Lemma no_services_found_before_probing_witness :
  exec (oracleOf (withServices (Ok []) shop)) askAppEnvName
       (flags "coffee" "" "")
  = (Failed (errorString "no applications found in project coffee"),
     flags "coffee" "" "", [Call (ListServices "coffee") (Ok [])]).
Proof.
  refine (@no_services_found_before_probing imports
            (oracleOf (withServices (Ok []) shop)) (flags "coffee" "" "")
            _ _);
    reflexivity.
Defined.

(** The services cannot be listed. *)
Lemma services_listing_failure_is_wrapped_witness :
  exists failure,
    exec (oracleOf (withServices (Err accessDenied) shop)) askAppEnvName
         (flags "coffee" "" "")
      = (Failed failure, flags "coffee" "" "",
         [Call (ListServices "coffee") (Err accessDenied)]) /\
    Unwrap failure = Some accessDenied /\
    Error failure = "list applications for project coffee: AccessDenied".
Proof.
  refine (@services_listing_failure_is_wrapped imports
            (oracleOf (withServices (Err accessDenied) shop))
            (flags "coffee" "" "") accessDenied _ _);
    reflexivity.
Defined.

(** The project has no environment. *)
Lemma no_environments_found_before_probing_witness :
  exists tr,
    exec (oracleOf (withEnvironments (Ok []) shop)) askAppEnvName
         (flags "coffee" "" "")
      = (Failed (errorString "no environments found in project coffee"),
         flags "coffee" "" "", tr) /\
    probesIssued tr = [] /\
    chooserCalls tr = [] /\
    notices tr = [].
Proof.
  refine (@no_environments_found_before_probing imports
            (oracleOf (withEnvironments (Ok []) shop))
            (flags "coffee" "" "") ["api"; "web"] _ _ _);
    reflexivity.
Defined.

(** The environments cannot be listed. *)
Lemma environments_listing_failure_is_wrapped_witness :
  exists failure tr,
    exec (oracleOf (withEnvironments (Err accessDenied) shop)) askAppEnvName
         (flags "coffee" "api" "") = (Failed failure, flags "coffee" "api" "", tr) /\
    Unwrap failure = Some accessDenied /\
    Error failure = "list environments for project coffee: AccessDenied" /\
    probesIssued tr = [] /\
    chooserCalls tr = [] /\
    notices tr = [].
Proof.
  refine (@environments_listing_failure_is_wrapped imports
            (oracleOf (withEnvironments (Err accessDenied) shop))
            (flags "coffee" "api" "") ["api"] accessDenied _ _ _);
    reflexivity.
Defined.

(** The human picks web/prod among api/test and web/prod. *)
Lemma offered_choice_resolves_to_a_deployed_pair_witness :
  exists p o' tr,
    exec (oracleOf shop) askAppEnvName (flags "coffee" "" "")
      = (Done tt, o', tr) /\
    p ∈ [pair "api" "test"; pair "web" "prod"] /\
    svcEnv_String p = "web/prod" /\
    svcName o' = svcEnv_svcName p /\
    envName o' = svcEnv_envName p.
Proof.
  refine (@offered_choice_resolves_to_a_deployed_pair imports (oracleOf shop)
            (flags "coffee" "" "") [pair "api" "test"; pair "web" "prod"]
            "web/prod" _ _ eq_refl _).
  - vm_compute. reflexivity.
  - vm_compute. lia.
  - apply (bool_decide_unpack _). vm_compute. exact I.
Defined.

Lemma choice_resolves_to_its_pair_witness :
  exists o' tr,
    exec (oracleOf shop) askAppEnvName (flags "coffee" "" "")
      = (Done tt, o', tr) /\
    svcName o' = "web" /\
    envName o' = "prod".
Proof.
  refine (@choice_resolves_to_its_pair imports (oracleOf shop)
            (flags "coffee" "" "") [pair "api" "test"; pair "web" "prod"]
            (pair "web" "prod") _ _ _ _ eq_refl).
  - vm_compute. reflexivity.
  - vm_compute. lia.
  - apply (bool_decide_unpack _). vm_compute. exact I.
  - apply (bool_decide_unpack _). vm_compute. exact I.
Defined.

(** [COLOR=TRUE]: both switches are cleared. *)
Lemma switches_agree_unless_COLOR_is_unknown_witness :
  color.core_DisableColor
    (color.DisableColorBasedOnEnvVar (fun _ => Some "TRUE")
       {| color.core_DisableColor := true; color.color_NoColor := false |})
  = color.color_NoColor
      (color.DisableColorBasedOnEnvVar (fun _ => Some "TRUE")
         {| color.core_DisableColor := true; color.color_NoColor := false |}).
Proof.
  refine (switches_agree_unless_COLOR_is_unknown (fun _ => Some "TRUE")
            {| color.core_DisableColor := true; color.color_NoColor := false |}
            _).
  intros value [= <-]. left. reflexivity.
Defined.

(** The status of api in test, in JSON and for the human: the format
    strings of the two calls. *)
Lemma Execute_prints_the_chosen_rendering_witness :
  (status.formats
     (status.play (reporting (Ok active))
                  (status.Execute (resolved true))).2
   = ["{status: ACTIVE}"]) /\
  (status.formats
     (status.play (reporting (Ok active))
                  (status.Execute (resolved false))).2
   = ["Status: ACTIVE"]).
Proof.
  split.
  - refine (proj2 (proj1 (Execute_prints_the_chosen_rendering
                            (reporting (Ok active)) (resolved true)
                            _ active eq_refl eq_refl)
                     eq_refl "{status: ACTIVE}" eq_refl)).
  - refine (proj2 (proj2 (Execute_prints_the_chosen_rendering
                            (reporting (Ok active)) (resolved false)
                            _ active eq_refl eq_refl)
                     eq_refl)).
Defined.

(** [COLOR=TrUe] clears both switches, [COLOR=FaLsE] sets both, [COLOR=yes]
    and the empty value leave them as they are, and without [COLOR] the
    first takes the value of the second. *)
Lemma DisableColorBasedOnEnvVar_frame_witness :
  color.DisableColorBasedOnEnvVar (fun _ => Some "TrUe")
    {| color.core_DisableColor := true; color.color_NoColor := false |}
  = {| color.core_DisableColor := false; color.color_NoColor := false |} /\
  color.DisableColorBasedOnEnvVar (fun _ => Some "FaLsE")
    {| color.core_DisableColor := false; color.color_NoColor := true |}
  = {| color.core_DisableColor := true; color.color_NoColor := true |} /\
  color.DisableColorBasedOnEnvVar (fun _ => Some "yes")
    {| color.core_DisableColor := true; color.color_NoColor := false |}
  = {| color.core_DisableColor := true; color.color_NoColor := false |} /\
  color.DisableColorBasedOnEnvVar (fun _ => Some "")
    {| color.core_DisableColor := true; color.color_NoColor := false |}
  = {| color.core_DisableColor := true; color.color_NoColor := false |} /\
  color.DisableColorBasedOnEnvVar (fun _ => None)
    {| color.core_DisableColor := true; color.color_NoColor := false |}
  = {| color.core_DisableColor := false; color.color_NoColor := false |}.
Proof.
  split; [| split; [| split; [| split]]].
  - refine (proj1 (proj2 (proj2 (proj2 (proj2 (proj2 (proj2
              (DisableColorBasedOnEnvVar_frame (fun _ => Some "TrUe")
                 {| color.core_DisableColor := true;
                    color.color_NoColor := false |})))))))
              "TrUe" eq_refl _).
    apply (bool_decide_unpack _). vm_compute. exact I.
  - refine (proj1 (proj2 (proj2 (proj2 (proj2 (proj2
              (DisableColorBasedOnEnvVar_frame (fun _ => Some "FaLsE")
                 {| color.core_DisableColor := false;
                    color.color_NoColor := true |}))))))
              "FaLsE" eq_refl _).
    apply (bool_decide_unpack _). vm_compute. exact I.
  - refine (proj2 (proj2 (proj2 (proj2 (proj2 (proj2 (proj2
              (DisableColorBasedOnEnvVar_frame (fun _ => Some "yes")
                 {| color.core_DisableColor := true;
                    color.color_NoColor := false |})))))))
              "yes" eq_refl _ _);
      apply (bool_decide_unpack _); vm_compute; exact I.
  - refine (proj1 (proj2
              (DisableColorBasedOnEnvVar_frame (fun _ => Some "")
                 {| color.core_DisableColor := true;
                    color.color_NoColor := false |}))
              "" eq_refl _ _); discriminate.
  - refine (proj1
              (DisableColorBasedOnEnvVar_frame (fun _ => None)
                 {| color.core_DisableColor := true;
                    color.color_NoColor := false |}) eq_refl).
Defined.

End FurtherScenarios.
